(** * fadr2chart: hit extraction and tempo-aware time-to-tick mapping

    A shallow embedding of [main.py] and the properties of its two cores:
    the per-category hit filter of [map_to_hits] with the energy gate of
    [detect_hits], and the inverse search [find_beat_time_for_seconds]
    driven by [map_to_beat_time].  Around them: the choice of the stem
    files ([list_mp3_files], [categorize_files]), the tempo map read from
    the chart ([read_sync_track], with the built-ins [int] and [str.strip]
    as parameters) and the run [main] that composes them.

    Numbers.  The structure of the program (which iteration looks up which
    tick, what the buffer holds, which exception is raised where) is
    studied on an embedding in which the Python floats that carry seconds,
    BPM and signal samples are exact rationals [Q]: every comparison and
    arithmetic operation of the source is kept, rounding and the finite
    range of a float are not.  Where an answer depends on them the mapper
    is embedded a second time, in module [Binary64], on the binary64
    floats of the machine, with the [OverflowError] of an integer too
    large for a float; statements about seconds are proved on [Q] under
    bounds within which both embeddings agree, and the inputs beyond the
    bounds are settled on [Binary64].  The tick counter [current_8th] is a
    float holding an integral multiple of 96.0 (exact far beyond any chart
    length) and is embedded as [Z]; a float key such as 96.0 looks up the
    integer key 96 of a Python dict, so the tempo map is a [gmap Z Z] from
    tick to BPM*1000.

    Control.  Python exceptions are the constructors of [exn]; a computation
    that may raise returns a [result].  The [while True] loop of the mapper
    is a step function [loop_body] iterated by [run_loop] under a fuel
    bound: [None] means that the loop is still running when the fuel is
    spent, so that both termination and non-termination can be stated. *)

From Stdlib Require Import ZArith QArith Qabs Qround Lqa Lia List Sorted Permutation.
From Stdlib Require Floats.
From stdpp Require Import gmap strings.
Import ListNotations.

Local Open Scope Z_scope.

(** ** Exceptions and results *)

Inductive exn : Set :=
| KeyError            (* subscript of a dict with a missing key *)
| TypeError           (* subscript of None *)
| ZeroDivisionError   (* float division by zero *)
| ValueError.         (* numpy operands that cannot be broadcast together *)

Inductive result (A : Type) : Type :=
| Ok (a : A)
| Raise (e : exn).
Arguments Ok {A} a.
Arguments Raise {A} e.

(** Sequencing: an exception raised by the first computation propagates. *)
#[global] Instance result_bind : MBind result := fun A B k r =>
  match r with
  | Ok a => k a
  | Raise e => Raise e
  end.

(** Strict comparison of two floats, [x < y]. *)
Definition Qltb (x y : Q) : bool := negb (Qle_bool y x).

(** ** Data *)

(** The three category keys ['drums-other'], ['snare'] and ['kick']. *)
Inductive category : Set := drums_other | snare | kick.

Definition category_eqb (a b : category) : bool :=
  match a, b with
  | drums_other, drums_other | snare, snare | kick, kick => true
  | _, _ => false
  end.

(** An entry [{'instrument': c, 'time': t}] of the chart in seconds. *)
Record hit : Set := Hit { instrument : category; time : Q }.

(** An entry [{'instrument': c, 'time': tick}] of the chart in ticks. *)
Record note : Set := Note { note_instrument : category; note_time : Z }.

(** A candidate [{'8th': tick, 'seconds': s}] of the mapper. *)
Record candidate : Set := Candidate { c_8th : Z; c_seconds : Q }.

(** ** Energy gate of [detect_hits] (lines 52-63) *)

Module Gate.

(** [np.repeat(mask, r, axis=1)] on the single row of [mask]. *)
Definition np_repeat {A : Type} (row : list A) (r : nat) : list A :=
  flat_map (fun b => repeat b r) row.

(** [int(np.ceil(len(y) / mask.shape[1]))]; the division raises when the
    row is empty. *)
Definition repeats (len_y frames : nat) : result nat :=
  if (frames =? 0)%nat then Raise ZeroDivisionError
  else Ok (Z.to_nat (Qceiling (inject_Z (Z.of_nat len_y) / inject_Z (Z.of_nat frames)))).

(** [mask = rms > rms_threshold], upsampled and trimmed to [len(y)]. *)
Definition upsample_mask (threshold : Q) (len_y : nat) (rms : list Q)
  : result (list bool) :=
  let mask := map (fun e => Qltb threshold e) rms in
  r ← repeats len_y (length mask);
  let mask := np_repeat mask r in
  Ok (firstn len_y mask).

(** [y * mask.flatten()]: elementwise product of two one-dimensional
    arrays, a boolean counting as 1 or 0.  numpy stretches an operand of
    length one and refuses any other pair of different lengths. *)
Definition gate_sample (s : Q) (b : bool) : Q := if b then s else 0%Q.

Definition np_mul (y : list Q) (mask : list bool) : result (list Q) :=
  if (length y =? length mask)%nat
  then Ok (map (fun p => gate_sample (fst p) (snd p)) (combine y mask))
  else match y, mask with
       | [s], _ => Ok (map (gate_sample s) mask)
       | _, [b] => Ok (map (fun s => gate_sample s b) y)
       | _, _ => Raise ValueError
       end.

(** The filtered signal [y_filtered] from the samples [y] and the row of
    RMS energies that [librosa.feature.rms] returned for them. *)
Definition y_filtered (threshold : Q) (y rms : list Q) : result (list Q) :=
  mask ← upsample_mask threshold (length y) rms;
  np_mul y mask.

(** Lines 59-63 from the boolean row [mask] that the comparison of line 56
    produced, whatever the precision in which numpy compared. *)
Definition gated (y : list Q) (mask : list bool) : result (list Q) :=
  r ← repeats (length y) (length mask);
  np_mul y (firstn (length y) (np_repeat mask r)).

(** [detect_hits]: the onset detector is the library's; any exception is
    caught and yields no hits. *)
Definition detect_hits (onset_times : list Q -> list Q)
    (threshold : Q) (y rms : list Q) : list Q :=
  match y_filtered threshold y rms with
  | Ok yf => onset_times yf
  | Raise _ => []
  end.

End Gate.

(** ** Per-category hit filter of [map_to_hits] (lines 76-100) *)

Module Hits.

Definition threshold_of (c : category) : Q :=
  match c with
  | kick => 1 # 10
  | drums_other => 5 # 1000
  | snare => 5 # 100
  end.

(** Truth value of [prev_hit]: [None] and the float 0.0 are false. *)
Definition truthy (prev_hit : option Q) : bool :=
  match prev_hit with
  | None => false
  | Some p => negb (Qeq_bool p 0)
  end.

(** The condition of line 94, evaluated left to right. *)
Definition skips (c : category) (prev_hit : option Q) (h : Q) : bool :=
  category_eqb c kick &&
  match prev_hit with
  | None => false
  | Some p => truthy prev_hit && Qltb (h - p) (1 # 10)
  end.

(** The loop of lines 92-97 over the onsets of one category: the times
    appended to the chart, in order. *)
Fixpoint retained (c : category) (prev_hit : option Q) (hits : list Q) : list Q :=
  match hits with
  | [] => []
  | h :: rest =>
      if skips c prev_hit h then retained c prev_hit rest
      else h :: retained c (Some h) rest
  end.

(** [map_to_hits]: the category keys in dictionary order, each with the
    file assigned to it, if any; [detect] stands for [detect_hits] on that
    file. *)
Definition map_to_hits {File : Type} (detect : File -> Q -> list Q)
    (categories : list (category * option File)) : list hit :=
  flat_map
    (fun '(c, file) =>
       match file with
       | None => []
       | Some f => map (Hit c) (retained c None (detect f (threshold_of c)))
       end)
    categories.

(** Consecutive times at least a tenth of a second apart, unless the
    earlier one is zero. *)
Fixpoint apart_unless_zero (l : list Q) : Prop :=
  match l with
  | a :: (b :: _) as rest =>
      (~ (a == 0)%Q -> (1 # 10 <= b - a)%Q) /\ apart_unless_zero rest
  | _ => True
  end.

End Hits.

(** ** Time-to-tick mapper (lines 103-161) *)

Module Mapper.

(** The BPM of an entry [v] of the tempo map, [v / 1000.0]. *)
Abbreviation bpm_of v := (inject_Z v / 1000)%Q.

(** The global set at start-up and the local constant of line 104. *)
Definition RESOLUTION : Q := 192.
Definition RESULUTION : Z := 192 / 2.

Definition beats_to_seconds (res_value bpm : Q) : result Q :=
  let beats := ((res_value / RESOLUTION) * (1 # 2))%Q in
  if Qeq_bool (bpm / 60) 0 then Raise ZeroDivisionError
  else Ok (beats * (1 / (bpm / 60)))%Q.

(** The variables of [find_beat_time_for_seconds] that the loop updates. *)
Record state : Set := State {
  candidates : list candidate;
  current_8th : Z;
  current_bpm : Q;
  current_seconds : Q
}.

(** [candidates.append(c)] followed by the [pop(0)] of lines 127-128. *)
Definition push (cands : list candidate) (c : candidate) : list candidate :=
  let cands := cands ++ [c] in
  if (3 <? length cands)%nat then tl cands else cands.

(** One iteration of the [while True] loop; the boolean tells whether the
    iteration ends in [break]. *)
Definition loop_body (sync_track : gmap Z Z) (seconds_to_find : Q)
    (st : state) : result (bool * state) :=
  let current_8th := current_8th st + RESULUTION in
  current_seconds ←
    (if 0 <? current_8th
     then d ← beats_to_seconds RESOLUTION (current_bpm st);
          Ok (current_seconds st + d)%Q
     else Ok (current_seconds st));
  let current_bpm :=
    match sync_track !! current_8th with
    | Some v => (inject_Z v / 1000)%Q
    | None => current_bpm st
    end in
  let candidates :=
    push (candidates st) (Candidate current_8th current_seconds) in
  Ok (Qltb seconds_to_find current_seconds,
      State candidates current_8th current_bpm current_seconds).

(** The loop under a fuel bound; [None]: still running. *)
Fixpoint run_loop (fuel : nat) (sync_track : gmap Z Z) (seconds_to_find : Q)
    (st : state) : option (result state) :=
  match fuel with
  | O => None
  | S fuel =>
      match loop_body sync_track seconds_to_find st with
      | Raise e => Some (Raise e)
      | Ok (true, st') => Some (Ok st')
      | Ok (false, st') => run_loop fuel sync_track seconds_to_find st'
      end
  end.

(** The scan of lines 134-137. *)
Definition closer (seconds_to_find : Q) (closest : option candidate)
    (c : candidate) : option candidate :=
  match closest with
  | None => Some c
  | Some cl =>
      if Qltb (Qabs (c_seconds c - seconds_to_find))
              (Qabs (c_seconds cl - seconds_to_find))
      then Some c else Some cl
  end.

Definition closest_of (seconds_to_find : Q) (cands : list candidate)
  : option candidate :=
  fold_left (closer seconds_to_find) cands None.

(** [closest['8th']], where [closest] may still be [None]. *)
Definition closest_8th (seconds_to_find : Q) (cands : list candidate)
  : result Z :=
  match closest_of seconds_to_find cands with
  | Some c => Ok (c_8th c)
  | None => Raise TypeError
  end.

Definition init (bpm : Q) : state := State [] (- RESULUTION) bpm 0.

(** [find_beat_time_for_seconds]; [sync_track] is [None] when no chart
    file was found by [read_sync_track]. *)
Definition find_beat_time_for_seconds (fuel : nat)
    (sync_track : option (gmap Z Z)) (seconds_to_find : Q)
  : option (result Z) :=
  match sync_track with
  | None => Some (Raise TypeError)
  | Some m =>
      match m !! 0 with
      | None => Some (Raise KeyError)
      | Some v =>
          match run_loop fuel m seconds_to_find (init (inject_Z v / 1000)) with
          | None => None
          | Some (Raise e) => Some (Raise e)
          | Some (Ok st) => Some (closest_8th seconds_to_find (candidates st))
          end
      end
  end.

(** [sorted(hits_dict, key=lambda x: x['time'])]: a stable sort. *)
Fixpoint insert_by_time (h : hit) (l : list hit) : list hit :=
  match l with
  | [] => [h]
  | x :: rest =>
      if Qle_bool (time h) (time x) then h :: x :: rest
      else x :: insert_by_time h rest
  end.

Definition sorted_by_time (hits : list hit) : list hit :=
  fold_right insert_by_time [] hits.

(** The loop of lines 141-144, [ret] being the notes appended so far. *)
Fixpoint map_hits (fuel : nat) (sync_track : option (gmap Z Z))
    (hits : list hit) (ret : list note) : option (result (list note)) :=
  match hits with
  | [] => Some (Ok ret)
  | h :: rest =>
      match find_beat_time_for_seconds fuel sync_track (time h) with
      | None => None
      | Some (Raise e) => Some (Raise e)
      | Some (Ok beat_time) =>
          map_hits fuel sync_track rest (ret ++ [Note (instrument h) beat_time])
      end
  end.

Definition map_to_beat_time (fuel : nat) (hits_dict : list hit)
    (sync_track : option (gmap Z Z)) : option (result (list note)) :=
  let hits_sorted_by_time := sorted_by_time hits_dict in
  match hits_sorted_by_time with
  | [] => Some (Ok [])
  | _ => map_hits fuel sync_track hits_sorted_by_time []
  end.

(** *** Iterations, buffers and predicates used in the statements *)

(** The state after exactly [n] iterations of the loop, with the [break]
    flag of the last one; [None] when the loop has ended earlier, by a
    [break] or by an exception. *)
Fixpoint iterations (n : nat) (sync_track : gmap Z Z) (seconds_to_find : Q)
    (st0 : state) : option (bool * state) :=
  match n with
  | O => Some (false, st0)
  | S n =>
      match iterations n sync_track seconds_to_find st0 with
      | Some (false, st) =>
          match loop_body sync_track seconds_to_find st with
          | Ok r => Some r
          | Raise _ => None
          end
      | _ => None
      end
  end.

(** The ticks of the last three points out of the [n] first points
    0, 96, 192, ... of the grid. *)
Definition window (n : nat) : list Z :=
  map (fun i => RESULUTION * Z.of_nat i) (seq (n - 3) (Nat.min n 3)).


(** The buffer as the specification words it, a history of capacity 4:
    the ticks of the last four points out of the [n] first ones. *)
Definition spec_window (n : nat) : list Z :=
  map (fun i => RESULUTION * Z.of_nat i) (seq (n - 4) (Nat.min n 4)).

(** The first candidate, in the order of the list, whose distance to the
    target no candidate undercuts: [cands !! i = Some c], every candidate is
    at least as far as [c] and every earlier one is strictly farther. *)
Definition first_min (seconds_to_find : Q) (cands : list candidate)
    (i : nat) (c : candidate) : Prop :=
  cands !! i = Some c /\
  (forall j c', cands !! j = Some c' ->
     (Qabs (c_seconds c - seconds_to_find)
      <= Qabs (c_seconds c' - seconds_to_find))%Q) /\
  (forall j c', (j < i)%nat -> cands !! j = Some c' ->
     (Qabs (c_seconds c - seconds_to_find)
      < Qabs (c_seconds c' - seconds_to_find))%Q).

(** An entry of the tempo map that line 116 or 124 can divide by 1000.0:
    the integer is converted to a float first, which raises [OverflowError]
    from 2^1024 - 2^970 on.  The bound taken here is the power of two
    below. *)
Definition float_range (v : Z) : Prop := - 2 ^ 1023 < v < 2 ^ 1023.





End Mapper.

(** ** The mapper on binary64 floats (lines 113-139 and 149-161) *)

Module Binary64.
Import Stdlib.Floats.Floats.

(** What the mapper can raise: one of the exceptions above, or the
    [OverflowError] of an integer too large to convert to a float. *)
Inductive raised : Set :=
| Builtin (e : exn)
| OverflowError.

Inductive outcome (A : Type) : Type :=
| Value (a : A)
| Raised (e : raised).
Arguments Value {A} a.
Arguments Raised {A} e.

(** The conversion of a Python integer to a float: the nearest binary64
    value, ties to even; it raises when that value is not finite. *)
Definition float_of_int (v : Z) : outcome float :=
  let x := SF2Prim (binary_normalize prec emax v 0 false) in
  if is_infinity x then Raised OverflowError else Value x.

(** [sync_track[k] / 1000.0] for the entry [v] at [k]. *)
Definition bpm_of (v : Z) : outcome float :=
  match float_of_int v with
  | Value x => Value (x / 1000)%float
  | Raised e => Raised e
  end.

(** [beats_to_seconds(RESOLUTION, bpm)] with the global [RESOLUTION] at
    192; a float division raises when the divisor is 0.0 or -0.0. *)
Definition beats_to_seconds (bpm : float) : outcome float :=
  let beats := ((192 / 192) * 0.5)%float in
  let bps := (bpm / 60)%float in
  if is_zero bps then Raised (Builtin ZeroDivisionError)
  else Value (beats * (1 / bps))%float.

Record candidate : Set := Candidate { c_8th : Z; c_seconds : float }.

Record state : Set := State {
  candidates : list candidate;
  current_8th : Z;
  current_bpm : float;
  current_seconds : float
}.

Definition push (cands : list candidate) (c : candidate) : list candidate :=
  let cands := cands ++ [c] in
  if (3 <? length cands)%nat then tl cands else cands.

(** Where the loop stands after an iteration: it goes on, it has left by
    [break], or an exception has ended it. *)
Inductive progress : Set :=
| Running (st : state)
| Broke (st : state)
| Failed (e : raised).

(** One iteration of the [while True] loop. *)
Definition loop_body (sync_track : gmap Z Z) (seconds_to_find : float)
    (st : state) : progress :=
  let current_8th := current_8th st + Mapper.RESULUTION in
  match (if 0 <? current_8th
         then match beats_to_seconds (current_bpm st) with
              | Value d => Value (current_seconds st + d)%float
              | Raised e => Raised e
              end
         else Value (current_seconds st)) with
  | Raised e => Failed e
  | Value current_seconds =>
      match (match sync_track !! current_8th with
             | Some v => bpm_of v
             | None => Value (current_bpm st)
             end) with
      | Raised e => Failed e
      | Value current_bpm =>
          let candidates :=
            push (candidates st) (Candidate current_8th current_seconds) in
          let st' := State candidates current_8th current_bpm current_seconds in
          if (seconds_to_find <? current_seconds)%float then Broke st'
          else Running st'
      end
  end.

(** The next iteration, if the loop is still running. *)
Definition continue (sync_track : gmap Z Z) (seconds_to_find : float)
    (p : progress) : progress :=
  match p with
  | Running st => loop_body sync_track seconds_to_find st
  | _ => p
  end.

(** The loop under a fuel bound, a binary number so that long runs can be
    evaluated. *)
Definition run_loop (fuel : positive) (sync_track : gmap Z Z)
    (seconds_to_find : float) (st : state) : progress :=
  Pos.iter (continue sync_track seconds_to_find) (Running st) fuel.

(** The scan of lines 134-137. *)
Definition closer (seconds_to_find : float) (closest : option candidate)
    (c : candidate) : option candidate :=
  match closest with
  | None => Some c
  | Some cl =>
      if (abs (c_seconds c - seconds_to_find)
          <? abs (c_seconds cl - seconds_to_find))%float
      then Some c else Some cl
  end.

Definition closest_8th (seconds_to_find : float) (cands : list candidate)
  : outcome Z :=
  match fold_left (closer seconds_to_find) cands None with
  | Some c => Value (c_8th c)
  | None => Raised (Builtin TypeError)
  end.

(** [find_beat_time_for_seconds] on a tempo map that was read from a
    chart; [None]: the loop is still running when the fuel is spent. *)
Definition find_beat_time_for_seconds (fuel : positive)
    (sync_track : gmap Z Z) (seconds_to_find : float) : option (outcome Z) :=
  match sync_track !! 0 with
  | None => Some (Raised (Builtin KeyError))
  | Some v =>
      match bpm_of v with
      | Raised e => Some (Raised e)
      | Value bpm =>
          match run_loop fuel sync_track seconds_to_find
                  (State [] (- Mapper.RESULUTION) bpm 0) with
          | Running _ => None
          | Failed e => Some (Raised e)
          | Broke st => Some (closest_8th seconds_to_find (candidates st))
          end
      end
  end.

End Binary64.

(** ** Stem files: [list_mp3_files] and [categorize_files] (lines 12-41) *)

Module Files.

Local Open Scope string_scope.

(** [s.startswith(p)] and [s.endswith(p)]. *)
Definition startswith (s p : string) : bool := String.prefix p s.
Definition endswith (s p : string) : bool :=
  String.prefix (String.rev p) (String.rev s).

(** [list_mp3_files], from the listing [os.listdir(directory)]. *)
Definition list_mp3_files (listdir : list string) : list string :=
  List.filter (fun f => endswith f ".mp3") listdir.

(** The dictionary [categories], one field per key. *)
Record categories : Set := Categories {
  cat_drums_other : option string;
  cat_snare : option string;
  cat_kick : option string;
  cat_all_files : list string
}.

Definition is_None {A : Type} (o : option A) : bool :=
  match o with None => true | Some _ => false end.

(** The body of the loop of [categorize_files]. *)
Definition categorize_file (c : categories) (file : string) : categories :=
  let c := Categories (cat_drums_other c) (cat_snare c) (cat_kick c)
                      (cat_all_files c ++ [file]) in
  if startswith file "drums-other-" && is_None (cat_drums_other c)
  then Categories (Some file) (cat_snare c) (cat_kick c) (cat_all_files c)
  else if startswith file "snare-" && is_None (cat_snare c)
  then Categories (cat_drums_other c) (Some file) (cat_kick c) (cat_all_files c)
  else if startswith file "kick-" && is_None (cat_kick c)
  then Categories (cat_drums_other c) (cat_snare c) (Some file) (cat_all_files c)
  else c.

Definition categorize_files (files : list string) : categories :=
  fold_left categorize_file files (Categories None None None []).

(** [categories.items()] without the key ['all-files'], which
    [map_to_hits] skips: the instrument keys in insertion order. *)
Definition instrument_items (c : categories) : list (category * option string) :=
  [(drums_other, cat_drums_other c); (snare, cat_snare c); (kick, cat_kick c)].

(** The first file of a list that the test accepts, unless one is set. *)
Definition first_or {A : Type} (o : option A) (test : A -> bool) (l : list A)
  : option A :=
  match o with
  | Some x => Some x
  | None => List.find test l
  end.

End Files.

(** ** Tempo map of a chart: [read_sync_track] (lines 168-211) *)

Module SyncTrack.
Import Stdlib.Strings.Ascii.
Import Files.

Local Open Scope string_scope.

(** The exceptions of the parser: [int] on a text that is no integer, and
    [parts[1]] on a line without ['=']. *)
Inductive chart_exn : Set := IntValueError | PartsIndexError.

Inductive parsed (A : Type) : Type :=
| Parsed (a : A)
| Failed (e : chart_exn).
Arguments Parsed {A} a.
Arguments Failed {A} e.

(** [s.split(sep)] for a separator of one character: the pieces between
    the occurrences of [sep], at least one piece. *)
Fixpoint split_on (sep : ascii) (s : string) : list string :=
  match s with
  | EmptyString => [EmptyString]
  | String a rest =>
      if Ascii.eqb a sep then EmptyString :: split_on sep rest
      else match split_on sep rest with
           | piece :: pieces => String a piece :: pieces
           | [] => [String a EmptyString]
           end
  end.

(** Truth value of a list: false when empty. *)
Definition truthy_list {A : Type} (l : list A) : bool :=
  match l with [] => false | _ :: _ => true end.

(** The first loop (lines 185-192): [acc] is the list [sync_track] so far. *)
Fixpoint sync_lines (acc : list string) (lines : list string) : list string :=
  match lines with
  | [] => acc
  | line :: rest =>
      if truthy_list acc && startswith line "}" then acc
      else if startswith line "[SyncTrack]" then sync_lines (acc ++ [line]) rest
      else if truthy_list acc then sync_lines (acc ++ [line]) rest
      else sync_lines acc rest
  end.

Section Parser.

(** The built-ins [int] ([None]: the text is no integer literal, a
    [ValueError]) and [str.strip]. *)
Variable py_int : string -> option Z.
Variable py_strip : string -> string.

Definition int_of (s : string) : parsed Z :=
  match py_int s with
  | Some z => Parsed z
  | None => Failed IntValueError
  end.

(** The body of the second loop (lines 196-208). *)
Definition sync_entry (bpm_by_beat : gmap Z Z) (line : string) : parsed (gmap Z Z) :=
  if startswith line "[" || startswith line "{" || startswith line "}"
  then Parsed bpm_by_beat
  else
    let parts := split_on "="%char line in
    match int_of (py_strip (hd EmptyString parts)) with
    | Failed e => Failed e
    | Parsed beat =>
        match parts !! 1%nat with
        | None => Failed PartsIndexError
        | Some part1 =>
            if negb (startswith (py_strip part1) "B") then Parsed bpm_by_beat
            else
              match int_of (py_strip (List.last (split_on " "%char part1) EmptyString)) with
              | Failed e => Failed e
              | Parsed bpm => Parsed (<[beat := bpm]> bpm_by_beat)
              end
        end
    end.

Fixpoint sync_entries (bpm_by_beat : gmap Z Z) (lines : list string)
  : parsed (gmap Z Z) :=
  match lines with
  | [] => Parsed bpm_by_beat
  | line :: rest =>
      match sync_entry bpm_by_beat line with
      | Failed e => Failed e
      | Parsed bpm_by_beat => sync_entries bpm_by_beat rest
      end
  end.

(** The part of [read_sync_track] after [f.readlines()]. *)
Definition read_lines (lines : list string) : parsed (gmap Z Z) :=
  sync_entries ∅ (sync_lines [] lines).

(** [read_sync_track], from the listing of the directory and the lines of
    each of its files; [None] is the [None] returned without a chart. *)
Definition read_sync_track (listdir : list string)
    (readlines : string -> list string) : parsed (option (gmap Z Z)) :=
  match List.find (fun f => endswith f "notes.chart") listdir with
  | None => Parsed None
  | Some sync_track_file =>
      match read_lines (readlines sync_track_file) with
      | Failed e => Failed e
      | Parsed bpm_by_beat => Parsed (Some bpm_by_beat)
      end
  end.

End Parser.

End SyncTrack.

(** ** Orders on hits and on times *)

Module Grid.

(** The order of [sorted(..., key=lambda x: x['time'])]. *)
Definition by_time (a b : hit) : Prop := (time a <= time b)%Q.

(** Consecutive times at least a tenth of a second apart. *)
Fixpoint apart (l : list Q) : Prop :=
  match l with
  | a :: (b :: _) as rest => (1 # 10 <= b - a)%Q /\ apart rest
  | _ => True
  end.

End Grid.

(** ** The whole run: [main] (lines 214-229) *)

Module Pipeline.
Import Files SyncTrack Hits Mapper.

Inductive outcome : Set :=
| Returned (hits_by_beat_time : list note)
| RaisedInChart (e : chart_exn)
| RaisedInMapper (e : exn).

Section Main.

Variable py_int : string -> option Z.
Variable py_strip : string -> string.

(** [main]: [listdir] is the listing of the directory, [readlines] gives
    the lines of a file of it and [detect] stands for [detect_hits] on a
    file of it. *)
Definition main (fuel : nat) (listdir : list string)
    (readlines : string -> list string) (detect : string -> Q -> list Q)
  : option outcome :=
  let mp3_files := list_mp3_files listdir in
  let categorized_files := categorize_files mp3_files in
  match read_sync_track py_int py_strip listdir readlines with
  | Failed e => Some (RaisedInChart e)
  | Parsed sync_track =>
      let hits_dict := map_to_hits detect (instrument_items categorized_files) in
      match map_to_beat_time fuel hits_dict sync_track with
      | None => None
      | Some (Raise e) => Some (RaisedInMapper e)
      | Some (Ok hits_by_beat_time) => Some (Returned hits_by_beat_time)
      end
  end.

End Main.

End Pipeline.

(** * Properties *)

(** ** Comparisons on rationals *)

Lemma Qltb_lt (x y : Q) : Qltb x y = true <-> (x < y)%Q.
Proof.
  unfold Qltb. rewrite negb_true_iff, <- not_true_iff_false, Qle_bool_iff.
  split; [apply Qnot_le_lt | apply Qlt_not_le].
Qed.

Lemma Qltb_ge (x y : Q) : Qltb x y = false <-> (y <= x)%Q.
Proof.
  unfold Qltb. rewrite negb_false_iff. apply Qle_bool_iff.
Qed.

Lemma Qeq_bool_false (x y : Q) : Qeq_bool x y = false <-> ~ (x == y)%Q.
Proof.
  rewrite <- not_true_iff_false, Qeq_bool_iff. tauto.
Qed.

(** ** The energy gate *)

Module GateFacts.
Import Gate.

Lemma length_np_repeat {A : Type} (row : list A) (r : nat) :
  length (np_repeat row r) = (length row * r)%nat.
Proof.
  unfold np_repeat. induction row as [|b row IH]; simpl; [reflexivity|].
  rewrite length_app, repeat_length, IH. reflexivity.
Qed.

(** The rounded-up quotient times the divisor covers the dividend. *)
Lemma ceiling_covers (len_y frames : nat) :
  (0 < frames)%nat ->
  (len_y <=
   frames * Z.to_nat (Qceiling (inject_Z (Z.of_nat len_y) / inject_Z (Z.of_nat frames))))%nat.
Proof.
  intros Hpos.
  set (q := (inject_Z (Z.of_nat len_y) / inject_Z (Z.of_nat frames))%Q).
  assert (HF : (0 < inject_Z (Z.of_nat frames))%Q).
  { rewrite <- (Zlt_Qlt 0). lia. }
  assert (Hq : (inject_Z (Z.of_nat len_y) == q * inject_Z (Z.of_nat frames))%Q).
  { unfold q. field. intros E. rewrite E in HF. exact (Qlt_irrefl _ HF). }
  assert (Hc : (q * inject_Z (Z.of_nat frames)
                <= inject_Z (Qceiling q) * inject_Z (Z.of_nat frames))%Q).
  { apply Qmult_le_compat_r; [apply Qle_ceiling | apply Qlt_le_weak, HF]. }
  rewrite <- Hq, <- inject_Z_mult, <- Zle_Qle in Hc.
  assert (0 <= Qceiling q)%Z by nia.
  nia.
Qed.

Lemma upsample_mask_length (threshold : Q) (len_y : nat) (rms : list Q) :
  rms <> [] ->
  exists mask, upsample_mask threshold len_y rms = Ok mask /\ length mask = len_y.
Proof.
  intros Hne. unfold upsample_mask, repeats. rewrite length_map.
  destruct rms as [|e rms]; [congruence|]. cbn [length Nat.eqb mbind result_bind].
  eexists. split; [reflexivity|].
  rewrite length_firstn, length_np_repeat, length_map.
  pose proof (ceiling_covers len_y (length (e :: rms)) ltac:(simpl; lia)) as H.
  cbn [length] in H |- *. lia.
Qed.

Lemma np_mul_same_length (y : list Q) (mask : list bool) :
  length mask = length y ->
  exists yf, np_mul y mask = Ok yf /\ length yf = length y.
Proof.
  intros Hlen. unfold np_mul. rewrite Hlen, Nat.eqb_refl.
  eexists. split; [reflexivity|].
  rewrite length_map, length_combine. lia.
Qed.

(** Without a single frame the division of line 59 raises, and the handler
    of [detect_hits] turns that into no hits. *)
Lemma no_frames_no_hits (onset_times : list Q -> list Q) (threshold : Q) (y : list Q) :
  detect_hits onset_times threshold y [] = [].
Proof. reflexivity. Qed.

(** C7.  Whatever the number of samples of the waveform and the number of
    analysis frames (at least one) of the energy curve, the mask repeated
    and trimmed by [detect_hits] has exactly as many entries as the
    waveform has samples, and the elementwise gating product is defined and
    has that length too. *)
Theorem expanded_mask_matches_waveform (threshold : Q) (y rms : list Q) :
  rms <> [] ->
  exists mask yf,
    upsample_mask threshold (length y) rms = Ok mask /\
    length mask = length y /\
    np_mul y mask = Ok yf /\
    y_filtered threshold y rms = Ok yf /\
    length yf = length y.
Proof.
  intros Hne.
  destruct (upsample_mask_length threshold (length y) rms Hne) as (mask & Hm & Hl).
  destruct (np_mul_same_length y mask Hl) as (yf & Hy & Hyl).
  exists mask, yf. unfold y_filtered. rewrite Hm. cbn. auto.
Qed.

Lemma expanded_mask_matches_waveform_witness :
  exists mask yf,
    upsample_mask (1 # 10) 5 [1 # 2; 0; 1 # 5]%Q = Ok mask /\
    length mask = 5%nat /\
    np_mul [1; 1; 1; 1; 1]%Q mask = Ok yf /\
    y_filtered (1 # 10) [1; 1; 1; 1; 1]%Q [1 # 2; 0; 1 # 5]%Q = Ok yf /\
    length yf = 5%nat.
Proof.
  apply (expanded_mask_matches_waveform (1 # 10) [1; 1; 1; 1; 1]%Q [1 # 2; 0; 1 # 5]%Q).
  discriminate.
Defined.

End GateFacts.

(** ** The Kick filter *)

Module HitsFacts.
Import Hits.

Lemma retained_kick_from (hits : list Q) :
  forall p, apart_unless_zero (p :: retained kick (Some p) hits).
Proof.
  induction hits as [|h rest IH]; intros p; [exact I|].
  cbn [retained]. destruct (skips kick (Some p) h) eqn:Hs.
  - apply IH.
  - split; [|apply IH].
    intros Hp. unfold skips, truthy in Hs. cbn [category_eqb andb] in Hs.
    apply Qeq_bool_false in Hp. rewrite Hp in Hs. cbn [negb andb] in Hs.
    apply Qltb_ge, Hs.
Qed.

(** What the filter does guarantee: every retained Kick onset that follows
    a retained non-zero onset is at least 0.10 s after it. *)
Lemma retained_kick_apart (hits : list Q) :
  apart_unless_zero (retained kick None hits).
Proof.
  destruct hits as [|h rest]; [exact I|]. apply retained_kick_from.
Qed.

(** A hit is dropped exactly when the previously kept Kick onset is
    non-zero and less than 0.10 s before it. *)
Lemma skips_kick_iff (p h : Q) :
  skips kick (Some p) h = true <-> ~ (p == 0)%Q /\ (h - p < 1 # 10)%Q.
Proof.
  unfold skips, truthy. cbn [category_eqb andb].
  rewrite andb_true_iff, negb_true_iff, Qeq_bool_false, Qltb_lt. tauto.
Qed.

(** Other categories keep every onset. *)
Lemma retained_other (c : category) (prev : option Q) (hits : list Q) :
  c <> kick -> retained c prev hits = hits.
Proof.
  intros Hc. revert prev. induction hits as [|h rest IH]; intros prev; [reflexivity|].
  cbn [retained]. replace (skips c prev h) with false.
  - f_equal. apply IH.
  - unfold skips. destruct c; try reflexivity. congruence.
Qed.

(** C2.  The Kick filter run on the onsets 0.0 s and 0.05 s: the previous
    hit 0.0 counts as false in the condition of line 94, the second onset
    is kept, and two consecutive retained Kick hits are 0.05 s apart. *)
Theorem kick_onset_at_zero_not_deduplicated :
  retained kick None [0; 5 # 100]%Q = [0; 5 # 100]%Q /\
  skips kick (Some 0%Q) (5 # 100) = false /\
  ((5 # 100) - 0 < 1 # 10)%Q.
Proof.
  split; [reflexivity|]. split; [reflexivity|]. reflexivity.
Qed.

End HitsFacts.

(** ** The mapper: structure of the loop *)

Module MapperFacts.
Import Mapper.

Lemma RESULUTION_eq : RESULUTION = 96.
Proof. reflexivity. Qed.

(** *** The loop and its iterations *)

Lemma iterations_shift (m : gmap Z Z) (target : Q) (n : nat) (st0 : state) :
  iterations (S n) m target st0 =
  match loop_body m target st0 with
  | Ok (false, st1) => iterations n m target st1
  | Ok (true, st1) => match n with O => Some (true, st1) | S _ => None end
  | Raise _ => None
  end.
Proof.
  induction n as [|n IH].
  - cbn [iterations]. destruct (loop_body m target st0) as [[[] st1]|e]; reflexivity.
  - change (iterations (S (S n)) m target st0) with
      (match iterations (S n) m target st0 with
       | Some (false, st) =>
           match loop_body m target st with Ok r => Some r | Raise _ => None end
       | _ => None
       end).
    rewrite IH. destruct (loop_body m target st0) as [[[] st1]|e]; try reflexivity.
    destruct n; reflexivity.
Qed.

(** A run that ends in [break] has performed some number of iterations,
    within the fuel, of which the last one is the breaking one. *)
Lemma run_loop_iterations (m : gmap Z Z) (target : Q) :
  forall fuel st0 st,
    run_loop fuel m target st0 = Some (Ok st) ->
    exists n, (n < fuel)%nat /\ iterations (S n) m target st0 = Some (true, st).
Proof.
  induction fuel as [|fuel IH]; intros st0 st Hrun; [discriminate|].
  cbn [run_loop] in Hrun.
  destruct (loop_body m target st0) as [[[] st1]|e] eqn:Hb; try discriminate.
  - injection Hrun as <-. exists 0%nat. split; [lia|].
    rewrite iterations_shift, Hb. reflexivity.
  - destruct (IH _ _ Hrun) as (n & Hn & Hit). exists (S n). split; [lia|].
    rewrite iterations_shift, Hb. exact Hit.
Qed.

(** Conversely, enough fuel lets the run reach the breaking iteration. *)
Lemma iterations_run_loop (m : gmap Z Z) (target : Q) :
  forall n st0 st fuel,
    iterations (S n) m target st0 = Some (true, st) -> (n < fuel)%nat ->
    run_loop fuel m target st0 = Some (Ok st).
Proof.
  induction n as [|n IH]; intros st0 st fuel Hit Hf;
    (destruct fuel as [|fuel]; [lia|]);
    rewrite iterations_shift in Hit; cbn [run_loop];
    destruct (loop_body m target st0) as [[[] st1]|e]; try discriminate.
  - congruence.
  - apply IH; [exact Hit | lia].
Qed.

(** What one iteration does to each variable. *)
Lemma loop_body_Ok (m : gmap Z Z) (target : Q) (st : state) (b : bool) (st' : state) :
  loop_body m target st = Ok (b, st') ->
  let t := current_8th st + RESULUTION in
  current_8th st' = t /\
  candidates st' = push (candidates st) (Candidate t (current_seconds st')) /\
  b = Qltb target (current_seconds st') /\
  current_bpm st' =
    match m !! t with
    | Some v => (inject_Z v / 1000)%Q
    | None => current_bpm st
    end /\
  ((t <= 0 /\ current_seconds st' = current_seconds st) \/
   (0 < t /\ exists d, beats_to_seconds RESOLUTION (current_bpm st) = Ok d /\
                       current_seconds st' = (current_seconds st + d)%Q)).
Proof.
  intros H t. unfold loop_body in H. fold t in H.
  destruct (0 <? t) eqn:Ht.
  - destruct (beats_to_seconds RESOLUTION (current_bpm st)) as [d|e] eqn:Hd;
      cbn in H; [|discriminate].
    injection H as <- <-. cbn. repeat split; try reflexivity.
    right. split; [lia|]. exists d. auto.
  - cbn in H. injection H as <- <-. cbn. repeat split; try reflexivity.
    left. split; [lia|reflexivity].
Qed.

(** An invariant of the loop body, indexed by the number of iterations
    done, holds after any number of iterations. *)
Lemma iterations_ind (m : gmap Z Z) (target : Q) (st0 : state)
    (P : nat -> state -> Prop) :
  P 0%nat st0 ->
  (forall n st b st', P n st -> loop_body m target st = Ok (b, st') -> P (S n) st') ->
  forall n b st, iterations n m target st0 = Some (b, st) -> P n st.
Proof.
  intros H0 Hstep. induction n as [|n IH]; intros b st Hit.
  - cbn in Hit. injection Hit as <- <-. exact H0.
  - cbn [iterations] in Hit.
    destruct (iterations n m target st0) as [[[] st1]|] eqn:Hn; try discriminate.
    destruct (loop_body m target st1) as [[b' st2]|e] eqn:Hb; try discriminate.
    injection Hit as <- <-. eapply Hstep; [|exact Hb]. eapply IH. reflexivity.
Qed.

(** *** The buffer of candidates *)

Lemma length_window (n : nat) : length (window n) = Nat.min n 3.
Proof. unfold window. rewrite length_map, length_seq. reflexivity. Qed.

Lemma window_full (n : nat) :
  (3 <= n)%nat ->
  window n = [RESULUTION * Z.of_nat (n - 3);
              RESULUTION * Z.of_nat (S (n - 3));
              RESULUTION * Z.of_nat (S (S (n - 3)))].
Proof.
  intros Hn. unfold window. replace (Nat.min n 3) with 3%nat by lia. reflexivity.
Qed.

Lemma window_S (n : nat) (cands : list candidate) (c : candidate) :
  map c_8th cands = window n ->
  c_8th c = RESULUTION * Z.of_nat n ->
  map c_8th (push cands c) = window (S n).
Proof.
  intros Hw Hc. unfold push.
  rewrite length_app, <- (length_map c_8th cands), Hw, length_window. cbn [length].
  destruct (le_lt_dec 3 n) as [Hn|Hn].
  - rewrite window_full in Hw |- * by lia.
    replace (S n - 3)%nat with (S (n - 3)) by lia.
    replace (Nat.min n 3 + 1)%nat with 4%nat by lia.
    destruct cands as [|c1 [|c2 [|c3 [|c4 cands]]]]; try discriminate.
    cbn in Hw |- *. injection Hw as _ -> ->. rewrite Hc.
    repeat f_equal. lia.
  - replace (3 <? Nat.min n 3 + 1)%nat with false
      by (symmetry; apply Nat.ltb_ge; lia).
    rewrite map_app, Hw. cbn [map]. rewrite Hc.
    destruct n as [|[|[|n]]]; [reflexivity..|lia].
Qed.

Lemma window_grid (n : nat) (t : Z) :
  In t (window n) -> exists k, 0 <= k /\ t = k * RESULUTION.
Proof.
  unfold window. rewrite in_map_iff. intros (i & <- & _).
  exists (Z.of_nat i). split; lia.
Qed.

(** After [n] iterations the tick counter stands at the [n]-th grid point
    and the buffer holds the last three points visited, no more. *)
Lemma iterations_window (m : gmap Z Z) (target bpm : Q) (n : nat) (b : bool) (st : state) :
  iterations n m target (init bpm) = Some (b, st) ->
  current_8th st = RESULUTION * Z.of_nat n - RESULUTION /\
  map c_8th (candidates st) = window n.
Proof.
  revert n b st. apply iterations_ind.
  - split; reflexivity.
  - intros n st b st' [Ht Hw] Hb. apply loop_body_Ok in Hb.
    destruct Hb as (Ht' & Hc & _). split; [lia|].
    rewrite Hc. apply window_S; [exact Hw|]. cbn. lia.
Qed.

(** *** The choice among the candidates *)

Lemma closest_of_snoc (target : Q) (l : list candidate) (x : candidate) :
  closest_of target (l ++ [x]) = closer target (closest_of target l) x.
Proof. unfold closest_of. rewrite fold_left_app. reflexivity. Qed.

(** The scan returns the earliest candidate of minimal distance. *)
Lemma closest_of_first_min (target : Q) (cands : list candidate) :
  cands <> [] ->
  exists i c, closest_of target cands = Some c /\ first_min target cands i c.
Proof.
  induction cands as [|x l IH] using rev_ind; [congruence|]. intros _.
  rewrite closest_of_snoc. destruct l as [|y l'] eqn:El.
  - exists 0%nat, x. split; [reflexivity|]. repeat split.
    + intros j c' Hj. apply list_lookup_singleton_Some in Hj as [_ <-]. apply Qle_refl.
    + intros j c' Hj. lia.
  - assert (Hl : l <> []) by (rewrite El; discriminate).
    rewrite <- El in *. clear El y l'.
    destruct (IH Hl) as (i & c & Hc & Hi & Hle & Hlt).
    rewrite Hc. cbn [closer]. pose proof (lookup_lt_Some _ _ _ Hi) as Hil.
    destruct (Qltb _ _) eqn:Hcmp.
    + apply Qltb_lt in Hcmp. exists (length l), x. split; [reflexivity|]. repeat split.
      * rewrite lookup_app_r, Nat.sub_diag by lia. reflexivity.
      * intros j c' Hj. apply lookup_app_Some in Hj as [Hj|[_ Hj]].
        -- apply Qlt_le_weak. eapply Qlt_le_trans; [exact Hcmp|]. eapply Hle, Hj.
        -- apply list_lookup_singleton_Some in Hj as [_ <-]. apply Qle_refl.
      * intros j c' Hjl Hj. rewrite lookup_app_l in Hj by lia.
        eapply Qlt_le_trans; [exact Hcmp|]. eapply Hle, Hj.
    + apply Qltb_ge in Hcmp. exists i, c. split; [reflexivity|]. repeat split.
      * rewrite lookup_app_l by lia. exact Hi.
      * intros j c' Hj. apply lookup_app_Some in Hj as [Hj|[_ Hj]].
        -- eapply Hle, Hj.
        -- apply list_lookup_singleton_Some in Hj as [_ <-]. exact Hcmp.
      * intros j c' Hji Hj. rewrite lookup_app_l in Hj by lia. eapply Hlt; eauto.
Qed.

Lemma closest_8th_first_min (target : Q) (cands : list candidate) :
  cands <> [] ->
  exists i c, first_min target cands i c /\ closest_8th target cands = Ok (c_8th c).
Proof.
  intros Hne. destruct (closest_of_first_min target cands Hne) as (i & c & Hc & Hm).
  exists i, c. unfold closest_8th. rewrite Hc. auto.
Qed.

Lemma closest_8th_in (target : Q) (cands : list candidate) (t : Z) :
  closest_8th target cands = Ok t -> In t (map c_8th cands).
Proof.
  intros H. assert (Hne : cands <> []) by (intros ->; discriminate).
  destruct (closest_8th_first_min target cands Hne) as (i & c & (Hi & _) & Hc).
  rewrite Hc in H. injection H as <-.
  apply in_map, list_elem_of_In, list_elem_of_lookup. eauto.
Qed.

(** C4, as the code has it.  After each iteration of the loop the buffer
    holds at most 3 candidates, namely the points of the 3 most recent
    ticks (an append that makes it exceed 3 entries drops the oldest one);
    the tick answered from a buffer is that of its earliest entry of
    minimal distance to the target, and the mapper returns the tick so
    answered from the buffer of the breaking iteration. *)
Theorem buffer_holds_last_three (m : gmap Z Z) (v : Z) (target : Q)
    (n : nat) (b : bool) (st : state) :
  m !! 0 = Some v ->
  iterations (S n) m target (init (bpm_of v)) = Some (b, st) ->
  (length (candidates st) <= 3)%nat /\
  map c_8th (candidates st) = window (S n) /\
  exists i c,
    first_min target (candidates st) i c /\
    closest_8th target (candidates st) = Ok (c_8th c) /\
    (b = true -> forall fuel, (n < fuel)%nat ->
       find_beat_time_for_seconds fuel (Some m) target = Some (Ok (c_8th c))).
Proof.
  intros Hv Hit. pose proof (iterations_window _ _ _ _ _ _ Hit) as [_ Hw].
  split; [|split; [exact Hw|]].
  - rewrite <- (length_map c_8th), Hw, length_window. lia.
  - destruct (closest_8th_first_min target (candidates st)) as (i & c & Hmin & Hc).
    { intros E. rewrite E in Hw. apply (f_equal (@length Z)) in Hw.
      rewrite length_window in Hw. cbn in Hw. lia. }
    exists i, c. split; [exact Hmin|]. split; [exact Hc|].
    intros -> fuel Hfuel. unfold find_beat_time_for_seconds. rewrite Hv.
    rewrite (iterations_run_loop _ _ _ _ _ _ Hit Hfuel), Hc. reflexivity.
Qed.

Lemma buffer_holds_last_three_witness :
  exists st,
    iterations 5 {[ 0 := 120000 ]} (3 # 4) (init (bpm_of 120000)) = Some (true, st) /\
    (length (candidates st) <= 3)%nat /\
    map c_8th (candidates st) = [192; 288; 384] /\
    exists i c,
      first_min (3 # 4) (candidates st) i c /\
      closest_8th (3 # 4) (candidates st) = Ok (c_8th c) /\
      (true = true -> forall fuel, (4 < fuel)%nat ->
         find_beat_time_for_seconds fuel (Some {[ 0 := 120000 ]}) (3 # 4)
         = Some (Ok (c_8th c))).
Proof.
  eexists. split; [vm_compute; reflexivity|].
  exact (buffer_holds_last_three {[ 0 := 120000 ]} 120000 (3 # 4) 4 true _ eq_refl eq_refl).
Defined.

(** C4, as the specification has it, fails: on the tempo map {0: 120000}
    and the target 1.0 s the buffer after the fourth iteration does not
    hold the four points visited so far. *)
Lemma buffer_of_four_refuted :
  ~ (forall b st,
       iterations 4 {[ 0 := 120000 ]} 1 (init (inject_Z 120000 / 1000)) = Some (b, st) ->
       map c_8th (candidates st) = spec_window 4).
Proof.
  intros H.
  specialize (H false _ ltac:(vm_compute; reflexivity)).
  vm_compute in H. discriminate H.
Qed.

(** C8.  Whenever the mapper returns a tick, that tick is a non-negative
    multiple of the step of 96 ticks. *)
Theorem returned_tick_on_grid (fuel : nat) (sync_track : option (gmap Z Z))
    (target : Q) (t : Z) :
  find_beat_time_for_seconds fuel sync_track target = Some (Ok t) ->
  exists k, 0 <= k /\ t = k * RESULUTION.
Proof.
  unfold find_beat_time_for_seconds. intros H.
  destruct sync_track as [m|]; [|discriminate].
  destruct (m !! 0) as [v|]; [|discriminate].
  destruct (run_loop fuel m target _) as [[st|e]|] eqn:Hrun; try discriminate.
  injection H as H.
  apply run_loop_iterations in Hrun as (n & _ & Hit).
  apply iterations_window in Hit as [_ Hw].
  apply closest_8th_in in H. rewrite Hw in H. eapply window_grid, H.
Qed.

Lemma returned_tick_on_grid_witness : exists k, 0 <= k /\ 384 = k * RESULUTION.
Proof.
  apply (returned_tick_on_grid 10 (Some {[ 0 := 120000 ]}) 1 384).
  vm_compute. reflexivity.
Defined.

(** *** Inputs the loop never looks at *)

Lemma loop_body_init (m : gmap Z Z) (target bpm : Q) :
  loop_body m target (init bpm) =
  Ok (Qltb target 0,
      State [Candidate 0 0] 0
            (match m !! 0 with Some v => (inject_Z v / 1000)%Q | None => bpm end) 0).
Proof. reflexivity. Qed.

(** Below zero the very first point, tick 0 at 0 s, has passed the target. *)
Lemma find_negative_target (fuel : nat) (m : gmap Z Z) (v : Z) (target : Q) :
  m !! 0 = Some v ->
  (target < 0)%Q ->
  find_beat_time_for_seconds (S fuel) (Some m) target = Some (Ok 0).
Proof.
  intros Hv Hneg. unfold find_beat_time_for_seconds. rewrite Hv.
  cbn [run_loop]. rewrite loop_body_init.
  apply Qltb_lt in Hneg. rewrite Hneg. reflexivity.
Qed.

(** C5, as the code has it.  For a negative target and a tempo map whose
    entry at tick 0 is within the range of a float the mapper raises
    nothing: the first iteration breaks and tick 0 is returned. *)
Theorem negative_target_maps_to_tick_zero (fuel : nat) (m : gmap Z Z) (v : Z)
    (target : Q) :
  m !! 0 = Some v ->
  float_range v ->
  (target < 0)%Q ->
  find_beat_time_for_seconds (S fuel) (Some m) target = Some (Ok 0).
Proof. intros Hv _ Ht. exact (find_negative_target fuel m v target Hv Ht). Qed.

Lemma negative_target_maps_to_tick_zero_witness :
  find_beat_time_for_seconds 1 (Some {[ 0 := 120000 ]}) (- (1 # 2)) = Some (Ok 0).
Proof.
  apply (negative_target_maps_to_tick_zero 0 {[ 0 := 120000 ]} 120000 (- (1 # 2))).
  - reflexivity.
  - split; reflexivity.
  - reflexivity.
Defined.

(** C5, as the specification has it, fails: the target -1.0 s on the tempo
    map {0: 120000} is answered with a tick and not with an error. *)
Lemma negative_target_error_refuted :
  ~ (exists e, find_beat_time_for_seconds 10 (Some {[ 0 := 120000 ]}) (- 1)
               = Some (Raise e)).
Proof. intros [e H]. vm_compute in H. discriminate H. Qed.

(** *** The tempo map without tick 0, and the empty hit list *)

Lemma insert_by_time_cons (h : hit) (l : list hit) :
  exists x rest, insert_by_time h l = x :: rest.
Proof. destruct l as [|y l]; cbn; [eauto|]. destruct (Qle_bool _ _); eauto. Qed.

Lemma sorted_by_time_cons (hits : list hit) :
  hits <> [] -> exists x rest, sorted_by_time hits = x :: rest.
Proof.
  destruct hits as [|h hits]; [congruence|]. intros _. apply insert_by_time_cons.
Qed.

(** C6, as the code has it.  With at least one hit, a tempo map that has no
    entry at tick 0 makes the mapper raise (the [KeyError] of the subscript
    [sync_track[0]]) whatever the fuel; no list of notes is returned. *)
Theorem missing_tick_zero_raises (fuel : nat) (hits : list hit) (m : gmap Z Z) :
  hits <> [] ->
  m !! 0 = None ->
  map_to_beat_time fuel hits (Some m) = Some (Raise KeyError).
Proof.
  intros Hne Hm. unfold map_to_beat_time.
  destruct (sorted_by_time_cons hits Hne) as (x & rest & ->).
  cbn [map_hits]. unfold find_beat_time_for_seconds. rewrite Hm. reflexivity.
Qed.

Lemma missing_tick_zero_raises_witness :
  map_to_beat_time 0 [Hit kick (1 # 2)] (Some ∅) = Some (Raise KeyError).
Proof.
  apply (missing_tick_zero_raises 0 [Hit kick (1 # 2)] ∅).
  - discriminate.
  - reflexivity.
Defined.

(** C6, as the specification has it, fails on the empty hit list: the
    empty tempo map then raises nothing and the empty chart is returned. *)
Lemma missing_tick_zero_empty_hits_refuted :
  (∅ : gmap Z Z) !! 0 = None /\
  map_to_beat_time 10 [] (Some ∅) = Some (Ok []) /\
  ~ (exists e, map_to_beat_time 10 [] (Some ∅) = Some (Raise e)).
Proof.
  split; [reflexivity|]. split; [reflexivity|]. intros [e H]. discriminate H.
Qed.

(** C10.  On the empty hit list [map_to_beat_time] returns the empty list
    whatever the tempo map is: absent ([None]), empty, or without tick 0;
    the tempo map is not consulted and no fuel is needed. *)
Theorem empty_hits_need_no_tempo_map (fuel : nat) (sync_track : option (gmap Z Z)) :
  map_to_beat_time fuel [] sync_track = Some (Ok []).
Proof. reflexivity. Qed.

End MapperFacts.

(** ** The mapper: elapsed seconds and termination *)

(** The lemmas of this module follow the elapsed seconds in exact
    arithmetic.  The theorems drawn from them carry the bounds on the
    tempo map and on the target within which the floats of the code give
    the same answers; [Binary64Facts] below shows what happens beyond. *)

Module TempoFacts.
Import Mapper MapperFacts.

Local Open Scope Q_scope.


Lemma bpm_of_neg (v : Z) : (v < 0)%Z -> bpm_of v < 0.
Proof.
  intros Hv. rewrite (Zlt_Qlt v 0) in Hv. change (inject_Z 0) with 0 in Hv.
  unfold Qdiv. change (/ 1000) with (1 # 1000). lra.
Qed.



(** The seconds of one step of 96 ticks: half a beat at the given tempo. *)
Lemma beats_to_seconds_Ok (bpm : Q) :
  ~ bpm == 0 ->
  exists d, beats_to_seconds RESOLUTION bpm = Ok d /\ d * bpm == 30.
Proof.
  intros Hb. unfold beats_to_seconds.
  assert (H60 : ~ bpm / 60 == 0).
  { intros E. apply Hb. unfold Qdiv in E. change (/ 60) with (1 # 60) in E. lra. }
  apply Qeq_bool_false in H60. rewrite H60.
  eexists. split; [reflexivity|]. unfold RESOLUTION. field. exact Hb.
Qed.

Lemma beats_to_seconds_zero (bpm : Q) :
  bpm == 0 -> beats_to_seconds RESOLUTION bpm = Raise ZeroDivisionError.
Proof.
  intros Hb. unfold beats_to_seconds.
  assert (H60 : bpm / 60 == 0) by (rewrite Hb; reflexivity).
  apply Qeq_bool_iff in H60. rewrite H60. reflexivity.
Qed.

(** An iteration raises only through the division by a zero tempo. *)
Lemma loop_body_defined (m : gmap Z Z) (target : Q) (st : state) :
  ~ current_bpm st == 0 ->
  exists b st', loop_body m target st = Ok (b, st').
Proof.
  intros Hb. destruct (beats_to_seconds_Ok _ Hb) as (d & Hd & _).
  unfold loop_body. rewrite Hd. destruct (_ <? _)%Z; cbn; eauto.
Qed.

(** *** Non-positive tempo *)

(** Under a tempo map whose entries are all negative the elapsed time
    never rises above zero, so that no non-negative target is passed. *)
Lemma negative_bpm_runs_forever (m : gmap Z Z) (target : Q) :
  map_Forall (fun _ v => (v < 0)%Z) m ->
  0 <= target ->
  forall fuel st,
    current_seconds st <= 0 -> current_bpm st < 0 ->
    run_loop fuel m target st = None.
Proof.
  intros Hm Ht. induction fuel as [|fuel IH]; intros st Hs Hb; [reflexivity|].
  cbn [run_loop].
  destruct (loop_body_defined m target st) as (b & st' & Hbody); [lra|].
  rewrite Hbody. apply loop_body_Ok in Hbody.
  destruct Hbody as (_ & _ & Hflag & Hbpm & Hsec).
  assert (Hs' : current_seconds st' <= 0).
  { destruct Hsec as [[_ ->]|(_ & d & Hd & ->)]; [exact Hs|].
    destruct (beats_to_seconds_Ok (current_bpm st)) as (d' & Hd' & Hprod); [lra|].
    rewrite Hd in Hd'. injection Hd' as <-. nra. }
  assert (Hb' : current_bpm st' < 0).
  { rewrite Hbpm. destruct (m !! _) as [v|] eqn:Hv; [|exact Hb].
    apply bpm_of_neg. exact (Hm _ _ Hv). }
  replace b with false; [apply IH; assumption|].
  rewrite Hflag. symmetry. apply Qltb_ge. lra.
Qed.

(** A zero tempo at tick 0 raises at the second iteration. *)
Lemma zero_bpm_raises (m : gmap Z Z) (target : Q) (fuel : nat) :
  m !! 0%Z = Some 0%Z ->
  0 <= target ->
  find_beat_time_for_seconds (S (S fuel)) (Some m) target
  = Some (Raise ZeroDivisionError).
Proof.
  intros Hm Ht. unfold find_beat_time_for_seconds. rewrite Hm.
  cbn [run_loop]. rewrite loop_body_init, Hm.
  apply Qltb_ge in Ht. rewrite Ht. reflexivity.
Qed.

(** C3, as the code has it.  The loop has no iteration bound: on a tempo
    map with an entry at tick 0 whose entries are all negative and within
    the range of a float, and a target that is not negative, the loop is
    still running after any number of iterations. *)
Theorem negative_tempo_never_ends (m : gmap Z Z) (v : Z) (target : Q) (fuel : nat) :
  m !! 0%Z = Some v ->
  map_Forall (fun _ v => (v < 0)%Z /\ float_range v) m ->
  0 <= target ->
  find_beat_time_for_seconds fuel (Some m) target = None.
Proof.
  intros Hv Hm Ht.
  assert (Hneg : map_Forall (fun _ v => (v < 0)%Z) m).
  { intros k' v' Hv'. exact (proj1 (Hm _ _ Hv')). }
  unfold find_beat_time_for_seconds. rewrite Hv.
  rewrite (negative_bpm_runs_forever m target Hneg Ht); [reflexivity|cbn; lra|].
  apply bpm_of_neg. exact (Hneg _ _ Hv).
Qed.

Lemma negative_tempo_never_ends_witness :
  find_beat_time_for_seconds 1000 (Some {[ 0%Z := (-120000)%Z ]}) 1 = None.
Proof.
  apply (negative_tempo_never_ends {[ 0%Z := (-120000)%Z ]} (-120000) 1 1000).
  - reflexivity.
  - apply map_Forall_singleton. split; [reflexivity|split; reflexivity].
  - discriminate.
Defined.

(** C3, as the specification has it, fails: on the tempo map {0: -120000}
    and the target 1.0 s no number of iterations ends the loop, be it by a
    result or by an error. *)
Lemma iteration_guard_refuted :
  ~ (exists fuel outcome,
       find_beat_time_for_seconds fuel (Some {[ 0%Z := (-120000)%Z ]}) 1
       = Some outcome).
Proof.
  intros (fuel & outcome & H). unfold find_beat_time_for_seconds in H.
  rewrite lookup_singleton_eq in H.
  rewrite (negative_bpm_runs_forever {[ 0%Z := (-120000)%Z ]} 1) in H.
  - discriminate H.
  - apply map_Forall_singleton. reflexivity.
  - discriminate.
  - cbn. lra.
  - reflexivity.
Qed.

(** *** Positive tempo *)





Section PositiveTempo.

Variable m : gmap Z Z.
Variable target : Q.
Variable fastest : Q.
Hypothesis m_positive : map_Forall (fun _ v => (0 < v)%Z) m.
Hypothesis m_bounded : map_Forall (fun _ v => bpm_of v <= fastest) m.




End PositiveTempo.






(** *** Constant tempo *)




Section ConstantTempo.

Variable v : Z.
Hypothesis v_positive : (0 < v)%Z.
Variable target : Q.
















End ConstantTempo.





End TempoFacts.

(** ** The mapper on binary64 floats: beyond the bounds *)

Module Binary64Facts.
Import Binary64.
Import Stdlib.Floats.Floats.

(** The conversion of an integer to a float raises from 2^1024 - 2^970
    on, and not below. *)
Lemma float_of_int_overflows :
  float_of_int (2 ^ 1024 - 2 ^ 970) = Raised OverflowError /\
  float_of_int (- (2 ^ 1024 - 2 ^ 970)) = Raised OverflowError /\
  float_of_int (2 ^ 1024 - 2 ^ 970 - 1) = Value 0x1.fffffffffffffp+1023%float.
Proof. repeat split; vm_compute; reflexivity. Qed.





(** Over a thousand steps the rounding does not show: at 100 BPM the
    seconds of the grid point 1000 are mapped to its tick. *)
Example grid_point_within_bounds :
  find_beat_time_for_seconds 1002 {[ 0 := 100000 ]}
    (1000 * (96 / 192) * (60 / 100))%float
  = Some (Value (1000 * 96)).
Proof. vm_compute. reflexivity. Qed.

(** Where the exact seconds of two candidates are equally far from the
    target the rounding decides: at 100 BPM the target 0.75 s lies midway
    between the points at 0.6 s and 0.9 s; the floats hold
    0.59999999999999998 and 0.89999999999999991, and the later tick is
    answered, where exact arithmetic answers the earlier one. *)
Example midway_target_under_rounding :
  find_beat_time_for_seconds 10 {[ 0 := 100000 ]} 0.75 = Some (Value 288) /\
  Mapper.find_beat_time_for_seconds 10 (Some {[ 0 := 100000 ]}) (3 # 4)
  = Some (Ok 192).
Proof. split; vm_compute; reflexivity. Qed.

End Binary64Facts.

(** ** The orchestration of [map_to_beat_time] *)

Module OrchestrationFacts.
Import Mapper MapperFacts TempoFacts Grid.

Local Open Scope Q_scope.

(** Off-grid entries of the tempo map are never read: two tempo maps that
    agree at the ticks 0, 96, 192, ... are mapped alike. *)
Lemma run_loop_on_grid_keys (m m' : gmap Z Z) (t : Q) :
  (forall k : nat, m !! (RESULUTION * Z.of_nat k)%Z = m' !! (RESULUTION * Z.of_nat k)%Z) ->
  forall fuel (n : nat) st,
    current_8th st = (RESULUTION * Z.of_nat n - RESULUTION)%Z ->
    run_loop fuel m t st = run_loop fuel m' t st.
Proof.
  intros Hagree. induction fuel as [|fuel IH]; intros n st Ht; [reflexivity|].
  cbn [run_loop].
  assert (E : loop_body m t st = loop_body m' t st).
  { unfold loop_body. replace (current_8th st + RESULUTION)%Z
      with (RESULUTION * Z.of_nat n)%Z by lia. rewrite Hagree. reflexivity. }
  rewrite <- E. destruct (loop_body m t st) as [[[] st']|e] eqn:Hb; try reflexivity.
  apply (IH (S n)). apply loop_body_Ok in Hb. destruct Hb as (Ht' & _). lia.
Qed.

Theorem off_grid_tempo_changes_ignored (m m' : gmap Z Z) (fuel : nat) (t : Q) :
  (forall k : nat, m !! (RESULUTION * Z.of_nat k)%Z = m' !! (RESULUTION * Z.of_nat k)%Z) ->
  find_beat_time_for_seconds fuel (Some m) t
  = find_beat_time_for_seconds fuel (Some m') t.
Proof.
  intros Hagree. unfold find_beat_time_for_seconds.
  pose proof (Hagree 0%nat) as H0. rewrite RESULUTION_eq in H0.
  change (96 * Z.of_nat 0)%Z with 0%Z in H0. rewrite <- H0.
  destruct (m !! 0%Z) as [v|]; [|reflexivity].
  rewrite (run_loop_on_grid_keys m m' t Hagree fuel 0); reflexivity.
Qed.

Lemma off_grid_tempo_changes_ignored_witness :
  find_beat_time_for_seconds 20 (Some {[ 0%Z := 120000%Z; 100%Z := 240000%Z ]}) 2
  = find_beat_time_for_seconds 20 (Some {[ 0%Z := 120000%Z ]}) 2.
Proof.
  apply (off_grid_tempo_changes_ignored
           {[ 0%Z := 120000%Z; 100%Z := 240000%Z ]} {[ 0%Z := 120000%Z ]} 20 2).
  intros k. rewrite RESULUTION_eq.
  destruct k as [|k]; [reflexivity|].
  rewrite lookup_insert_ne by lia. rewrite !lookup_singleton_ne by lia. reflexivity.
Defined.

(** *** Sorting by time *)

Lemma insert_by_time_perm (h : hit) (l : list hit) :
  Permutation (insert_by_time h l) (h :: l).
Proof.
  induction l as [|x l IH]; cbn; [reflexivity|].
  destruct (Qle_bool (time h) (time x)); [reflexivity|].
  rewrite IH. apply perm_swap.
Qed.

Lemma insert_by_time_sorted (h : hit) (l : list hit) :
  Sorted by_time l -> Sorted by_time (insert_by_time h l).
Proof.
  induction l as [|x l IH]; intros Hs; cbn.
  - repeat constructor.
  - destruct (Qle_bool (time h) (time x)) eqn:E.
    + apply Qle_bool_iff in E. constructor; [exact Hs|]. constructor. exact E.
    + assert (Hxh : by_time x h).
      { unfold by_time. destruct (Qlt_le_dec (time x) (time h)) as [H|H].
        - apply Qlt_le_weak, H.
        - apply Qle_bool_iff in H. congruence. }
      inversion Hs as [|? ? Hs' Hhd]; subst. constructor; [apply IH, Hs'|].
      destruct l as [|y l]; cbn.
      * constructor. exact Hxh.
      * destruct (Qle_bool (time h) (time y)); constructor; [exact Hxh|].
        inversion Hhd; assumption.
Qed.

#[local] Instance by_time_transitive : Transitive by_time.
Proof. intros a b c. unfold by_time. apply Qle_trans. Qed.

Lemma sorted_by_time_sorted (hits : list hit) :
  Permutation (sorted_by_time hits) hits /\
  StronglySorted by_time (sorted_by_time hits).
Proof.
  split.
  - induction hits as [|h hits IH]; cbn; [reflexivity|].
    rewrite insert_by_time_perm, IH. reflexivity.
  - apply Sorted_StronglySorted; [apply by_time_transitive|].
    induction hits as [|h hits IH]; cbn; [constructor|].
    apply insert_by_time_sorted, IH.
Qed.

(** The hits are taken in ascending order of time, whatever the order
    they come in: the list mapped is a rearrangement of the hits in which
    no hit comes before one of an earlier time. *)
Theorem hits_taken_in_time_order (hits : list hit) :
  Permutation (sorted_by_time hits) hits /\
  StronglySorted by_time (sorted_by_time hits).
Proof. apply sorted_by_time_sorted. Qed.

(** Hits of equal time keep the order they come in. *)
Lemma insert_by_time_first (h : hit) (l : list hit) :
  Forall (fun x => time h <= time x) l -> insert_by_time h l = h :: l.
Proof.
  intros H. destruct l as [|x l]; [reflexivity|]. cbn.
  inversion H as [|? ? Hx _]; subst. apply Qle_bool_iff in Hx. rewrite Hx. reflexivity.
Qed.

(** *** Without a tempo map *)

(** Without a chart file the first hit makes the mapper raise: [None] has
    no subscript. *)
Theorem tempo_map_none_raises (fuel : nat) (hits : list hit) :
  hits <> [] ->
  map_to_beat_time fuel hits None = Some (Raise TypeError).
Proof.
  intros Hne. unfold map_to_beat_time.
  destruct (sorted_by_time_cons hits Hne) as (x & rest & ->). reflexivity.
Qed.

Lemma tempo_map_none_raises_witness :
  map_to_beat_time 5 [Hit kick 1] None = Some (Raise TypeError).
Proof. apply (tempo_map_none_raises 5 [Hit kick 1]). discriminate. Defined.

(** *** Whatever the tempo map *)

Lemma find_on_grid (fuel : nat) (sync_track : option (gmap Z Z)) (target : Q) (t : Z) :
  find_beat_time_for_seconds fuel sync_track target = Some (Ok t) ->
  exists k, (0 <= k)%Z /\ t = (k * RESULUTION)%Z.
Proof.
  unfold find_beat_time_for_seconds. intros H.
  destruct sync_track as [m|]; [|discriminate].
  destruct (m !! 0%Z) as [v|]; [|discriminate].
  destruct (run_loop fuel m target _) as [[st|e]|] eqn:Hrun; try discriminate.
  injection H as H.
  apply run_loop_iterations in Hrun as (n & _ & Hit).
  apply iterations_window in Hit as [_ Hw].
  apply closest_8th_in in H. rewrite Hw in H. eapply window_grid, H.
Qed.

Lemma map_hits_returns (fuel : nat) (sync_track : option (gmap Z Z)) :
  forall hits ret notes,
    map_hits fuel sync_track hits ret = Some (Ok notes) ->
    exists new,
      notes = (ret ++ new)%list /\
      Forall2 (fun h n =>
                 note_instrument n = instrument h /\
                 find_beat_time_for_seconds fuel sync_track (time h)
                 = Some (Ok (note_time n))) hits new.
Proof.
  induction hits as [|h hits IH]; intros ret notes H; cbn [map_hits] in H.
  - injection H as <-. exists []. rewrite app_nil_r. split; [reflexivity|constructor].
  - destruct (find_beat_time_for_seconds fuel sync_track (time h)) as [[r|e]|] eqn:Hr;
      try discriminate.
    destruct (IH _ _ H) as (new & -> & Hall).
    exists (Note (instrument h) r :: new). rewrite <- app_assoc. split; [reflexivity|].
    constructor; [split; [reflexivity|exact Hr]|exact Hall].
Qed.

(** Whatever the tempo map, a run of [map_to_beat_time] that returns gives
    one note per hit, with the instruments of the hits in order of time and
    with every tick a non-negative multiple of 96. *)
Theorem notes_on_grid (fuel : nat) (hits : list hit)
    (sync_track : option (gmap Z Z)) (notes : list note) :
  map_to_beat_time fuel hits sync_track = Some (Ok notes) ->
  length notes = length hits /\
  map note_instrument notes = map instrument (sorted_by_time hits) /\
  Forall (fun n => exists k, (0 <= k)%Z /\ note_time n = (k * RESULUTION)%Z) notes.
Proof.
  intros H. pose proof (sorted_by_time_sorted hits) as [Hperm _].
  assert (Hall : Forall2 (fun h n =>
                    note_instrument n = instrument h /\
                    find_beat_time_for_seconds fuel sync_track (time h)
                    = Some (Ok (note_time n))) (sorted_by_time hits) notes).
  { unfold map_to_beat_time in H. destruct (sorted_by_time hits) as [|h l] eqn:E.
    - injection H as <-. constructor.
    - apply map_hits_returns in H as (new & -> & Hall). exact Hall. }
  split; [|split].
  - rewrite <- (Forall2_length _ _ _ Hall). apply Permutation_length, Hperm.
  - clear H Hperm. induction Hall as [|h n l k [Hi _] _ IH]; [reflexivity|].
    cbn. rewrite Hi, IH. reflexivity.
  - clear H Hperm. induction Hall as [|h n l k [_ Hf] _ IH]; constructor; [|exact IH].
    eapply find_on_grid, Hf.
Qed.

Lemma notes_on_grid_witness :
  length [Note kick 96; Note snare 192] = 2%nat /\
  map note_instrument [Note kick 96; Note snare 192]
  = map instrument (sorted_by_time [Hit snare (52 # 100); Hit kick (1 # 4)]) /\
  Forall (fun n => exists k, (0 <= k)%Z /\ note_time n = (k * RESULUTION)%Z)
         [Note kick 96; Note snare 192].
Proof.
  apply (notes_on_grid 10 [Hit snare (52 # 100); Hit kick (1 # 4)]
           (Some {[ 0%Z := 120000%Z ]}) [Note kick 96; Note snare 192]).
  vm_compute. reflexivity.
Defined.

End OrchestrationFacts.

(** ** The energy gate, sample by sample *)

Module GateSamples.
Import Gate GateFacts.

Lemma lookup_repeat {A : Type} (x : A) (n i : nat) :
  (i < n)%nat -> repeat x n !! i = Some x.
Proof.
  revert i. induction n as [|n IH]; intros i Hi; [lia|].
  destruct i as [|i]; [reflexivity|]. cbn. apply IH. lia.
Qed.

(** Entry [i] of the repeated row is entry [i / r] of the row. *)
Lemma lookup_np_repeat {A : Type} (row : list A) (r i : nat) :
  (0 < r)%nat -> np_repeat row r !! i = row !! (i / r)%nat.
Proof.
  intros Hr. revert i. induction row as [|b row IH]; intros i.
  - reflexivity.
  - change (np_repeat (b :: row) r) with (repeat b r ++ np_repeat row r).
    destruct (le_lt_dec r i) as [Hge|Hlt].
    + rewrite lookup_app_r by (rewrite repeat_length; exact Hge).
      rewrite repeat_length, IH.
      replace (i / r)%nat with (S ((i - r) / r)); [reflexivity|].
      replace i with ((i - r) + 1 * r)%nat at 2 by lia.
      rewrite Nat.div_add by lia. lia.
    + rewrite lookup_app_l by (rewrite repeat_length; exact Hlt).
      rewrite Nat.div_small by exact Hlt. apply lookup_repeat, Hlt.
Qed.

Lemma lookup_combine {A B : Type} (l : list A) (k : list B) (i : nat) (a : A) (b : B) :
  l !! i = Some a -> k !! i = Some b -> combine l k !! i = Some (a, b).
Proof.
  revert k i. induction l as [|x l IH]; intros [|y k] [|i]; try discriminate; cbn.
  - congruence.
  - apply IH.
Qed.

(** The sample-wise reading of the gate. *)
Lemma y_filtered_lookup (threshold : Q) (y rms : list Q) :
  rms <> [] ->
  exists r yf,
    repeats (length y) (length rms) = Ok r /\
    y_filtered threshold y rms = Ok yf /\
    length yf = length y /\
    forall i s, y !! i = Some s ->
      exists e, rms !! (i / r)%nat = Some e /\
                yf !! i = Some (gate_sample s (Qltb threshold e)).
Proof.
  intros Hne.
  destruct (upsample_mask_length threshold (length y) rms Hne) as (mask & Hmask & Hlen).
  destruct (np_mul_same_length y mask Hlen) as (yf & Hyf & Hyflen).
  pose proof Hmask as Hmask'. unfold upsample_mask in Hmask'. rewrite length_map in Hmask'.
  unfold repeats in *. destruct (length rms =? 0)%nat eqn:E0.
  { apply Nat.eqb_eq in E0. destruct rms; [congruence|discriminate]. }
  apply Nat.eqb_neq in E0. cbn in Hmask'. injection Hmask' as Hmask'.
  eexists _, yf. split; [reflexivity|].
  split; [unfold y_filtered; rewrite Hmask; exact Hyf|]. split; [exact Hyflen|].
  intros i s Hi. pose proof (lookup_lt_Some _ _ _ Hi) as Hil.
  pose proof (ceiling_covers (length y) (length rms) ltac:(lia)) as Hcover.
  set (r := Z.to_nat _) in *.
  assert (Hr : (0 < r)%nat) by nia.
  assert (Hframe : (i / r < length rms)%nat).
  { apply Nat.Div0.div_lt_upper_bound. lia. }
  destruct (lookup_lt_is_Some_2 rms _ Hframe) as [e He]. exists e. split; [exact He|].
  assert (Hm : mask !! i = Some (Qltb threshold e)).
  { rewrite <- Hmask', lookup_take_lt by exact Hil.
    rewrite lookup_np_repeat by exact Hr.
    change (map (fun e0 => Qltb threshold e0) rms) with ((fun e0 => Qltb threshold e0) <$> rms).
    rewrite list_lookup_fmap, He. reflexivity. }
  unfold np_mul in Hyf. rewrite Hlen, Nat.eqb_refl in Hyf. injection Hyf as <-.
  change (map ?f ?l) with (f <$> l). rewrite list_lookup_fmap.
  rewrite (lookup_combine _ _ _ _ _ Hi Hm). reflexivity.
Qed.

(** The energies enter the gate through the boolean row only. *)
Lemma y_filtered_gated (threshold : Q) (y rms : list Q) :
  y_filtered threshold y rms = gated y (map (fun e => Qltb threshold e) rms).
Proof.
  unfold y_filtered, gated, upsample_mask. destruct (repeats _ _); reflexivity.
Qed.

Lemma gated_lookup (y : list Q) (mask : list bool) :
  mask <> [] ->
  exists r yf,
    repeats (length y) (length mask) = Ok r /\
    gated y mask = Ok yf /\
    length yf = length y /\
    forall i s, y !! i = Some s ->
      exists b, mask !! (i / r)%nat = Some b /\ yf !! i = Some (gate_sample s b).
Proof.
  intros Hne.
  assert (Hpos : (0 < length mask)%nat) by (destruct mask; [congruence|cbn; lia]).
  pose proof (ceiling_covers (length y) (length mask) Hpos) as Hcover.
  unfold gated, repeats.
  destruct (length mask =? 0)%nat eqn:E0; [apply Nat.eqb_eq in E0; lia|].
  cbn [mbind result_bind]. set (r := Z.to_nat _) in *.
  assert (Hlen : length (firstn (length y) (np_repeat mask r)) = length y).
  { rewrite length_firstn, length_np_repeat. lia. }
  destruct (np_mul_same_length y _ Hlen) as (yf & Hyf & Hyflen).
  exists r, yf. split; [reflexivity|]. split; [exact Hyf|]. split; [exact Hyflen|].
  intros i s Hi. pose proof (lookup_lt_Some _ _ _ Hi) as Hil.
  assert (Hr : (0 < r)%nat) by nia.
  assert (Hframe : (i / r < length mask)%nat).
  { apply Nat.Div0.div_lt_upper_bound. lia. }
  destruct (lookup_lt_is_Some_2 mask _ Hframe) as [b Hb]. exists b. split; [exact Hb|].
  assert (Hm : firstn (length y) (np_repeat mask r) !! i = Some b).
  { rewrite lookup_take_lt by exact Hil. rewrite lookup_np_repeat by exact Hr. exact Hb. }
  unfold np_mul in Hyf. rewrite Hlen, Nat.eqb_refl in Hyf. injection Hyf as <-.
  change (map ?f ?l) with (f <$> l). rewrite list_lookup_fmap.
  rewrite (lookup_combine _ _ _ _ _ Hi Hm). reflexivity.
Qed.

(** Each sample of the filtered signal is the sample of the waveform when
    the mask entry of its frame is True, and zero otherwise; sample [i]
    belongs to frame [i / r], [r] being the repeat count of line 59. *)
Theorem gate_keeps_masked_frames (y : list Q) (mask : list bool) (i : nat) (s : Q) :
  mask <> [] ->
  y !! i = Some s ->
  exists r yf (b : bool),
    repeats (length y) (length mask) = Ok r /\
    gated y mask = Ok yf /\
    mask !! (i / r)%nat = Some b /\
    yf !! i = Some (if b then s else 0%Q).
Proof.
  intros Hne Hi.
  destruct (gated_lookup y mask Hne) as (r & yf & Hr & Hyf & _ & Hall).
  destruct (Hall i s Hi) as (b & Hb & Hs). exists r, yf, b. auto.
Qed.

Lemma gate_keeps_masked_frames_witness :
  exists r yf (b : bool),
    repeats 5 2 = Ok r /\
    gated [1; 2; 3; 4; 5]%Q [true; false] = Ok yf /\
    [true; false] !! (3 / r)%nat = Some b /\
    yf !! 3%nat = Some (if b then 4%Q else 0%Q).
Proof.
  apply (gate_keeps_masked_frames [1; 2; 3; 4; 5]%Q [true; false] 3 4%Q).
  - discriminate.
  - reflexivity.
Defined.

(** Under a mask whose entries are all True the waveform passes the gate
    unchanged. *)
Theorem full_mask_leaves_waveform (y : list Q) (mask : list bool) :
  mask <> [] ->
  Forall (fun b => b = true) mask ->
  gated y mask = Ok y.
Proof.
  intros Hne Hfull.
  destruct (gated_lookup y mask Hne) as (r & yf & _ & Hyf & Hlen & Hall).
  rewrite Hyf. f_equal. apply list_eq. intros i. destruct (y !! i) as [s|] eqn:Hi.
  - destruct (Hall i s Hi) as (b & Hb & ->).
    apply list_elem_of_lookup_2 in Hb.
    rewrite Forall_forall in Hfull. rewrite (Hfull _ Hb). reflexivity.
  - apply lookup_ge_None. apply lookup_ge_None in Hi. lia.
Qed.

Lemma full_mask_leaves_waveform_witness :
  gated [1; 2; 3]%Q [true; true] = Ok [1; 2; 3]%Q.
Proof.
  apply (full_mask_leaves_waveform [1; 2; 3]%Q [true; true]).
  - discriminate.
  - repeat constructor.
Defined.

(** A waveform none of whose frames exceeds the threshold is silenced: the
    onsets are detected on as many zeros as the waveform has samples. *)
Theorem quiet_waveform_silenced (onset_times : list Q -> list Q)
    (threshold : Q) (y rms : list Q) :
  rms <> [] ->
  Forall (fun e => (e <= threshold)%Q) rms ->
  y_filtered threshold y rms = Ok (repeat 0%Q (length y)) /\
  detect_hits onset_times threshold y rms = onset_times (repeat 0%Q (length y)).
Proof.
  intros Hne Hquiet.
  destruct (y_filtered_lookup threshold y rms Hne) as (r & yf & _ & Hyf & Hlen & Hall).
  assert (E : yf = repeat 0%Q (length y)).
  { apply list_eq. intros i. destruct (y !! i) as [s|] eqn:Hi.
    - destruct (Hall i s Hi) as (e & He & ->).
      apply list_elem_of_lookup_2 in He.
      rewrite Forall_forall in Hquiet. apply Hquiet, Qltb_ge in He. rewrite He.
      rewrite lookup_repeat by (eapply lookup_lt_Some, Hi). reflexivity.
    - apply lookup_ge_None in Hi.
      rewrite (lookup_ge_None_2 yf) by lia.
      symmetry. apply lookup_ge_None. rewrite repeat_length. exact Hi. }
  subst yf. unfold detect_hits. rewrite Hyf. auto.
Qed.

Lemma quiet_waveform_silenced_witness :
  y_filtered (1 # 10) [1; 2; 3]%Q [1 # 10; 0]%Q = Ok (repeat 0%Q 3) /\
  detect_hits (fun yf => yf) (1 # 10) [1; 2; 3]%Q [1 # 10; 0]%Q = repeat 0%Q 3.
Proof.
  apply (quiet_waveform_silenced (fun yf => yf) (1 # 10) [1; 2; 3]%Q [1 # 10; 0]%Q).
  - discriminate.
  - repeat constructor; discriminate.
Defined.

End GateSamples.

(** ** The hit filter of [map_to_hits], further *)

Module HitsMore.
Import Hits HitsFacts Grid.

Lemma retained_kick_apart_from (hits : list Q) :
  forall p, ~ (p == 0)%Q -> Forall (fun h => ~ (h == 0)%Q) hits ->
            apart (p :: retained kick (Some p) hits).
Proof.
  induction hits as [|h rest IH]; intros p Hp Hall; [exact I|].
  inversion Hall as [|? ? Hh Hrest]; subst.
  cbn [retained]. destruct (skips kick (Some p) h) eqn:Hs.
  - apply IH; assumption.
  - split; [|apply IH; assumption].
    unfold skips, truthy in Hs. cbn [category_eqb andb] in Hs.
    apply Qeq_bool_false in Hp. rewrite Hp in Hs. cbn [negb andb] in Hs.
    apply Qltb_ge, Hs.
Qed.

(** When no Kick onset lies at 0.0 s, consecutive retained Kick hits are
    at least 0.10 s apart. *)
Theorem kick_hits_apart (hits : list Q) :
  Forall (fun h => ~ (h == 0)%Q) hits ->
  apart (retained kick None hits).
Proof.
  intros Hall. destruct hits as [|h rest]; [exact I|].
  inversion Hall; subst. apply retained_kick_apart_from; assumption.
Qed.

Lemma kick_hits_apart_witness :
  apart (retained kick None [1 # 2; 55 # 100; 61 # 100; 7 # 10]%Q).
Proof.
  apply (kick_hits_apart [1 # 2; 55 # 100; 61 # 100; 7 # 10]%Q).
  repeat constructor; discriminate.
Defined.

Lemma retained_sublist_from (c : category) (hits : list Q) :
  forall prev, sublist (retained c prev hits) hits.
Proof.
  induction hits as [|h rest IH]; intros prev; cbn [retained]; [constructor|].
  destruct (skips c prev h); [apply sublist_cons, IH | apply sublist_skip, IH].
Qed.

(** The filter only drops onsets: what it keeps is a subsequence of the
    onsets in their order, and the first onset of a stem is always kept. *)
Theorem retained_subsequence (c : category) (hits : list Q) :
  sublist (retained c None hits) hits /\
  head (retained c None hits) = head hits.
Proof.
  split; [apply retained_sublist_from|].
  destruct hits as [|h rest]; [reflexivity|].
  cbn [retained]. replace (skips c None h) with false; [reflexivity|].
  unfold skips. destruct (category_eqb c kick); reflexivity.
Qed.

Lemma retained_idempotent_from (c : category) (hits : list Q) :
  forall prev, retained c prev (retained c prev hits) = retained c prev hits.
Proof.
  induction hits as [|h rest IH]; intros prev; cbn [retained]; [reflexivity|].
  destruct (skips c prev h) eqn:Hs; [apply IH|].
  cbn [retained]. rewrite Hs, IH. reflexivity.
Qed.

(** Filtering twice changes nothing: the retained hits pass the filter
    again unharmed. *)
Theorem retained_idempotent (c : category) (hits : list Q) :
  retained c None (retained c None hits) = retained c None hits.
Proof. apply retained_idempotent_from. Qed.

(** The onsets of a stem of another category than Kick all reach the
    chart, in their order and under its instrument; a category without a
    file adds nothing. *)
Theorem other_categories_unfiltered {File : Type} (detect : File -> Q -> list Q)
    (c : category) (f : File) (cats : list (category * option File)) :
  c <> kick ->
  map_to_hits detect ((c, Some f) :: cats)
  = map (Hit c) (detect f (threshold_of c)) ++ map_to_hits detect cats /\
  map_to_hits detect ((c, None) :: cats) = map_to_hits detect cats.
Proof.
  intros Hc. unfold map_to_hits. cbn [flat_map].
  rewrite retained_other by exact Hc. split; reflexivity.
Qed.

Lemma other_categories_unfiltered_witness :
  map_to_hits (fun (_ : unit) _ => [1; 1 + (1 # 100)]%Q) [(snare, Some tt)]
  = map (Hit snare) [1; 1 + (1 # 100)]%Q ++ map_to_hits (fun (_ : unit) _ => [1; 1 + (1 # 100)]%Q) [] /\
  map_to_hits (fun (_ : unit) _ => [1; 1 + (1 # 100)]%Q) [(snare, None)]
  = map_to_hits (fun (_ : unit) _ => [1; 1 + (1 # 100)]%Q) [].
Proof.
  apply (other_categories_unfiltered (fun (_ : unit) _ => [1; 1 + (1 # 100)]%Q) snare tt []).
  discriminate.
Defined.

End HitsMore.

(** ** Tempo arithmetic *)

Module BeatsFacts.
Import Mapper MapperFacts TempoFacts Grid.

Local Open Scope Q_scope.

(** A tempo of zero at tick 0 makes the mapper raise at the second
    iteration for every target that is not negative. *)
Theorem zero_tempo_divides_by_zero (m : gmap Z Z) (target : Q) (fuel : nat) :
  m !! 0%Z = Some 0%Z ->
  0 <= target ->
  find_beat_time_for_seconds (S (S fuel)) (Some m) target
  = Some (Raise ZeroDivisionError).
Proof. apply zero_bpm_raises. Qed.

Lemma zero_tempo_divides_by_zero_witness :
  find_beat_time_for_seconds 2 (Some {[ 0%Z := 0%Z; 96%Z := 120000%Z ]}) 1
  = Some (Raise ZeroDivisionError).
Proof.
  apply (zero_tempo_divides_by_zero {[ 0%Z := 0%Z; 96%Z := 120000%Z ]} 1 0).
  - reflexivity.
  - discriminate.
Defined.

End BeatsFacts.

(** ** The stem files *)

Module FilesFacts.
Import Stdlib.Strings.Ascii.
Import Files.

Local Open Scope string_scope.

(** No file name starts with two of the three prefixes. *)
Lemma prefixes_exclusive (file : string) :
  (startswith file "drums-other-" = true ->
   startswith file "snare-" = false /\ startswith file "kick-" = false) /\
  (startswith file "snare-" = true -> startswith file "kick-" = false).
Proof.
  unfold startswith. destruct file as [|a file]; [split; discriminate|].
  cbn [String.prefix].
  destruct (Ascii.ascii_dec "d"%char a) as [Hd|Hd],
    (Ascii.ascii_dec "s"%char a) as [Hs|Hs], (Ascii.ascii_dec "k"%char a) as [Hk|Hk];
    try congruence; split; intros H; try discriminate H; try split; reflexivity.
Qed.

Lemma categorize_files_from (files : list string) :
  forall c,
    let r := fold_left categorize_file files c in
    cat_drums_other r
    = first_or (cat_drums_other c) (fun f => startswith f "drums-other-") files /\
    cat_snare r = first_or (cat_snare c) (fun f => startswith f "snare-") files /\
    cat_kick r = first_or (cat_kick c) (fun f => startswith f "kick-") files /\
    cat_all_files r = (cat_all_files c ++ files)%list.
Proof.
  induction files as [|file files IH]; intros c.
  - cbn. destruct c as [[?|] [?|] [?|] ?]; cbn; rewrite app_nil_r; auto.
  - cbn [fold_left]. specialize (IH (categorize_file c file)). cbn zeta in IH |- *.
    destruct IH as (Hd & Hs & Hk & Ha). rewrite Hd, Hs, Hk, Ha. clear Hd Hs Hk Ha.
    destruct (prefixes_exclusive file) as [Hex1 Hex2].
    unfold categorize_file. cbn [cat_drums_other cat_snare cat_kick cat_all_files].
    destruct (startswith file "drums-other-") eqn:Ed.
    + destruct (Hex1 eq_refl) as [Es Ek]. rewrite Es, Ek.
      destruct c as [[?|] [?|] [?|] ?]; cbn; rewrite ?Ed, ?Es, ?Ek, <- ?app_assoc; auto.
    + destruct (startswith file "snare-") eqn:Es.
      * rewrite (Hex2 eq_refl).
        destruct c as [[?|] [?|] [?|] ?]; cbn; rewrite ?Ed, ?Es, ?(Hex2 eq_refl), <- ?app_assoc; auto.
      * destruct (startswith file "kick-") eqn:Ek;
          destruct c as [[?|] [?|] [?|] ?]; cbn; rewrite ?Ed, ?Es, ?Ek, <- ?app_assoc; auto.
Qed.

(** [categorize_files] assigns to each instrument the first file of the
    list that starts with its prefix, later ones being ignored, and
    collects every file under ['all-files'] in the order of the list. *)
Theorem first_file_per_category (files : list string) :
  cat_drums_other (categorize_files files)
  = List.find (fun f => startswith f "drums-other-") files /\
  cat_snare (categorize_files files) = List.find (fun f => startswith f "snare-") files /\
  cat_kick (categorize_files files) = List.find (fun f => startswith f "kick-") files /\
  cat_all_files (categorize_files files) = files.
Proof. apply (categorize_files_from files (Categories None None None [])). Qed.

Lemma find_filter {A : Type} (keep test : A -> bool) (l : list A) :
  List.find test (List.filter keep l) = List.find (fun x => keep x && test x) l.
Proof.
  induction l as [|x l IH]; [reflexivity|]. cbn.
  destruct (keep x); cbn; [destruct (test x); [reflexivity|exact IH] | exact IH].
Qed.

(** From the listing of a directory, the stem of each instrument is the
    first entry that ends with ['.mp3'] and starts with the prefix of the
    instrument. *)
Theorem stems_of_directory (listdir : list string) :
  let stem prefix :=
    List.find (fun f => endswith f ".mp3" && startswith f prefix) listdir in
  instrument_items (categorize_files (list_mp3_files listdir))
  = [(drums_other, stem "drums-other-"); (snare, stem "snare-"); (kick, stem "kick-")].
Proof.
  cbn zeta. unfold instrument_items, list_mp3_files.
  destruct (categorize_files_from (List.filter (fun f => endswith f ".mp3") listdir)
              (Categories None None None [])) as (Hd & Hs & Hk & _).
  cbn zeta in Hd, Hs, Hk. unfold categorize_files. rewrite Hd, Hs, Hk.
  cbn [first_or cat_drums_other cat_snare cat_kick].
  rewrite !find_filter. reflexivity.
Qed.

End FilesFacts.

(** ** The tempo map of a chart *)

Module SyncFacts.
Import Stdlib.Strings.Ascii.
Import Files SyncTrack.

Local Open Scope string_scope.

(** Before the header nothing is collected. *)
Lemma sync_lines_before_header (pre lines : list string) :
  Forall (fun line => startswith line "[SyncTrack]" = false) pre ->
  sync_lines [] (pre ++ lines) = sync_lines [] lines.
Proof.
  induction 1 as [|line pre Hline _ IH]; [reflexivity|].
  cbn [app sync_lines truthy_list andb]. rewrite Hline. exact IH.
Qed.

(** Once something is collected, every line is, up to the first one that
    starts with a closing brace. *)
Lemma sync_lines_block (body : list string) (closing : string) (post : list string) :
  Forall (fun line => startswith line "}" = false) body ->
  startswith closing "}" = true ->
  forall acc, acc <> [] ->
    sync_lines acc (body ++ closing :: post) = (acc ++ body)%list.
Proof.
  intros Hbody Hclosing. induction Hbody as [|line body Hline _ IH]; intros acc Hacc.
  - cbn [app sync_lines]. destruct acc; [congruence|].
    cbn [truthy_list andb]. rewrite Hclosing, app_nil_r. reflexivity.
  - cbn [app sync_lines]. destruct acc as [|a acc]; [congruence|].
    cbn [truthy_list andb]. rewrite Hline.
    assert (E : sync_lines ((a :: acc) ++ [line]) (body ++ closing :: post)
                = (((a :: acc) ++ [line]) ++ body)%list)
      by (apply IH; destruct acc; discriminate).
    rewrite <- app_assoc in E. cbn [app] in E.
    destruct (startswith line "[SyncTrack]"); exact E.
Qed.

Lemma header_no_brace (header : string) :
  startswith header "[SyncTrack]" = true ->
  startswith header "}" = false /\ startswith header "[" = true.
Proof.
  unfold startswith. destruct header as [|a header]; [discriminate|].
  cbn [String.prefix].
  destruct (Ascii.ascii_dec "["%char a) as [<-|Ha]; [|discriminate].
  intros _. split; [reflexivity|]. destruct header; reflexivity.
Qed.

(** Only the first [[SyncTrack]] block of the chart is read: the lines
    before its header, the line that closes it and all lines after that
    have no influence, and the tempo map is built from the lines in
    between alone. *)
Theorem only_sync_block_is_read (py_int : string -> option Z)
    (py_strip : string -> string)
    (pre : list string) (header : string) (body : list string)
    (closing : string) (post : list string) :
  Forall (fun line => startswith line "[SyncTrack]" = false) pre ->
  startswith header "[SyncTrack]" = true ->
  Forall (fun line => startswith line "}" = false) body ->
  startswith closing "}" = true ->
  read_lines py_int py_strip (pre ++ header :: body ++ closing :: post)
  = sync_entries py_int py_strip ∅ body.
Proof.
  intros Hpre Hheader Hbody Hclosing. unfold read_lines.
  rewrite sync_lines_before_header by exact Hpre.
  destruct (header_no_brace header Hheader) as [Hb Hbr].
  cbn [sync_lines truthy_list andb]. rewrite Hheader.
  rewrite (sync_lines_block body closing post Hbody Hclosing) by discriminate.
  cbn [app sync_entries]. unfold sync_entry at 1. rewrite Hbr. reflexivity.
Qed.

Lemma only_sync_block_is_read_witness :
  read_lines (fun _ => None) (fun s => s)
    (["[Song]"; "}"] ++ "[SyncTrack]" :: ["{"] ++ "}" :: ["[Events]"; "x"])
  = sync_entries (fun _ => None) (fun s => s) ∅ ["{"].
Proof.
  apply (only_sync_block_is_read (fun _ => None) (fun s => s)
           ["[Song]"; "}"] "[SyncTrack]" ["{"] "}" ["[Events]"; "x"]).
  - repeat constructor.
  - reflexivity.
  - repeat constructor.
  - reflexivity.
Defined.

Lemma split_on_absent (sep : ascii) (s : string) :
  Forall (fun a => a <> sep) (String.list_ascii_of_string s) ->
  split_on sep s = [s].
Proof.
  induction s as [|a s IH]; intros H; [reflexivity|].
  cbn [String.list_ascii_of_string] in H. inversion H as [|? ? Ha Hs]; subst.
  cbn [split_on]. apply Ascii.eqb_neq in Ha. rewrite Ha, (IH Hs). reflexivity.
Qed.

(** Inside the block a line without ['='] that does not start with a
    bracket or a brace, a blank line for one, never passes: it raises, at
    [int] or at [parts[1]]. *)
Theorem line_without_equals_raises (py_int : string -> option Z)
    (py_strip : string -> string) (bpm_by_beat : gmap Z Z) (line : string) :
  Forall (fun a => a <> "="%char) (String.list_ascii_of_string line) ->
  startswith line "[" = false ->
  startswith line "{" = false ->
  startswith line "}" = false ->
  sync_entry py_int py_strip bpm_by_beat line
  = match py_int (py_strip line) with
    | None => Failed IntValueError
    | Some _ => Failed PartsIndexError
    end.
Proof.
  intros Hno H1 H2 H3. unfold sync_entry, int_of.
  rewrite H1, H2, H3, (split_on_absent _ _ Hno). cbn [orb hd].
  destruct (py_int (py_strip line)); reflexivity.
Qed.

Lemma line_without_equals_raises_witness :
  sync_entry (fun _ => None) (fun s => s) ∅ "  "
  = match (fun _ : string => @None Z) ((fun s : string => s) "  ") with
    | None => Failed IntValueError
    | Some _ => Failed PartsIndexError
    end.
Proof.
  apply (line_without_equals_raises (fun _ => None) (fun s => s) ∅ "  ").
  - repeat constructor; discriminate.
  - reflexivity.
  - reflexivity.
  - reflexivity.
Defined.

(** A directory without a file ending in ['notes.chart'] yields [None],
    without reading any file. *)
Lemma read_sync_track_no_chart (py_int : string -> option Z)
    (py_strip : string -> string) (listdir : list string)
    (readlines : string -> list string) :
  Forall (fun f => endswith f "notes.chart" = false) listdir ->
  read_sync_track py_int py_strip listdir readlines = Parsed None.
Proof.
  intros Hno. unfold read_sync_track.
  replace (List.find (fun f => endswith f "notes.chart") listdir) with (@None string);
    [reflexivity|].
  symmetry. induction Hno as [|f l Hf _ IH]; [reflexivity|]. cbn. rewrite Hf. exact IH.
Qed.

End SyncFacts.

(** ** The whole run *)

Module PipelineFacts.
Import Files SyncTrack SyncFacts Hits Mapper MapperFacts Pipeline.

Local Open Scope string_scope.

Lemma no_mp3_no_hits (listdir : list string) (detect : string -> Q -> list Q) :
  Forall (fun f => endswith f ".mp3" = false) listdir ->
  map_to_hits detect (instrument_items (categorize_files (list_mp3_files listdir))) = [].
Proof.
  intros Hno. replace (list_mp3_files listdir) with (@nil string); [reflexivity|].
  symmetry. unfold list_mp3_files.
  induction Hno as [|f l Hf _ IH]; [reflexivity|]. cbn. rewrite Hf. exact IH.
Qed.

(** A directory without any ['.mp3'] file gives the empty chart, whatever
    its tempo map is, even none; only an exception of the chart parser
    comes through. *)
Theorem no_stems_empty_chart (py_int : string -> option Z) (py_strip : string -> string)
    (fuel : nat) (listdir : list string) (readlines : string -> list string)
    (detect : string -> Q -> list Q) :
  Forall (fun f => endswith f ".mp3" = false) listdir ->
  main py_int py_strip fuel listdir readlines detect
  = match read_sync_track py_int py_strip listdir readlines with
    | Failed e => Some (RaisedInChart e)
    | Parsed _ => Some (Returned [])
    end.
Proof.
  intros Hno. unfold main. rewrite no_mp3_no_hits by exact Hno.
  destruct (read_sync_track py_int py_strip listdir readlines); reflexivity.
Qed.

Lemma no_stems_empty_chart_witness :
  main (fun _ => None) (fun s => s) 0 ["notes.chart"; "song.ogg"]
       (fun _ => ["[SyncTrack]"; "{"; "}"]) (fun _ _ => [1%Q])
  = match read_sync_track (fun _ => None) (fun s => s) ["notes.chart"; "song.ogg"]
            (fun _ => ["[SyncTrack]"; "{"; "}"]) with
    | Failed e => Some (RaisedInChart e)
    | Parsed _ => Some (Returned [])
    end.
Proof.
  apply (no_stems_empty_chart (fun _ => None) (fun s => s) 0 ["notes.chart"; "song.ogg"]
           (fun _ => ["[SyncTrack]"; "{"; "}"]) (fun _ _ => [1%Q])).
  repeat constructor.
Defined.

(** A directory without a chart file but with a stem on which a hit is
    detected makes the run raise: the tempo map is [None] and its subscript
    a [TypeError]. *)
Theorem no_chart_raises (py_int : string -> option Z) (py_strip : string -> string)
    (fuel : nat) (listdir : list string) (readlines : string -> list string)
    (detect : string -> Q -> list Q) :
  Forall (fun f => endswith f "notes.chart" = false) listdir ->
  map_to_hits detect (instrument_items (categorize_files (list_mp3_files listdir))) <> [] ->
  main py_int py_strip fuel listdir readlines detect = Some (RaisedInMapper TypeError).
Proof.
  intros Hno Hhits. unfold main.
  rewrite read_sync_track_no_chart by exact Hno.
  unfold map_to_beat_time.
  destruct (sorted_by_time_cons _ Hhits) as (x & rest & ->). reflexivity.
Qed.

Lemma no_chart_raises_witness :
  main (fun _ => None) (fun s => s) 3 ["snare-1.mp3"] (fun _ => []) (fun _ _ => [1%Q])
  = Some (RaisedInMapper TypeError).
Proof.
  apply (no_chart_raises (fun _ => None) (fun s => s) 3 ["snare-1.mp3"]
           (fun _ => []) (fun _ _ => [1%Q])).
  - repeat constructor.
  - discriminate.
Defined.

End PipelineFacts.

(** ** Worked examples *)

Module Examples.
Import Hits Mapper.

(** One second at 120 BPM is two beats, tick 384. *)
Example one_second_at_120 :
  find_beat_time_for_seconds 10 (Some {[ 0 := 120000 ]}) 1 = Some (Ok 384).
Proof. vm_compute. reflexivity. Qed.

(** Tempo 120 BPM up to tick 960 (2.5 s), 240 BPM beyond: the point one
    beat after the change lies at 2.75 s. *)
Example tempo_change_applied :
  find_beat_time_for_seconds 30 (Some {[ 0 := 120000; 960 := 240000 ]}) (275 # 100)
  = Some (Ok 1152).
Proof. vm_compute. reflexivity. Qed.

(** A zero tempo is divided by at the second iteration. *)
Example zero_tempo_raises :
  find_beat_time_for_seconds 10 (Some {[ 0 := 0 ]}) 1 = Some (Raise ZeroDivisionError).
Proof. vm_compute. reflexivity. Qed.

(** No chart file: the subscript of [None] raises. *)
Example absent_tempo_map_raises :
  map_to_beat_time 10 [Hit snare 1] None = Some (Raise TypeError).
Proof. reflexivity. Qed.

(** The Kick onsets 0.50, 0.55 and 0.61 s: the second falls within 0.10 s
    of the first and is dropped, the third is 0.11 s after the first. *)
Example kick_cluster :
  retained kick None [1 # 2; 55 # 100; 61 # 100]%Q = [1 # 2; 61 # 100]%Q.
Proof. reflexivity. Qed.

(** The hits are mapped in the order of their times, whatever the order
    they come in. *)
Example mapped_in_time_order :
  map_to_beat_time 10 [Hit snare (52 # 100); Hit kick (1 # 4)] (Some {[ 0 := 120000 ]})
  = Some (Ok [Note kick 96; Note snare 192]).
Proof. vm_compute. reflexivity. Qed.

End Examples.
